(** * GreatFET host library: SPI bus transactions and the SPI-flash utility

    A shallow embedding of

    - [host/greatfet/peripherals/spi_bus.py]       (class [SPIBus]), and
    - [host/greatfet/commands/greatfet_firmware.py] (the flash utility),

    together with the properties their specification states about them.

    Python objects that are mutated in place (the [data] list handed to
    [SPIBus.transmit]) live in an object store indexed by references, so
    that a caller holding the same reference observes the mutation.
    Exceptions are results of the computation; the state reached when an
    exception is raised is kept, as in Python. A list that is too long
    to be built raises, and so does a file that cannot be opened: how
    long a list the interpreter has room for, and which paths can be
    opened, are part of the world.

    The two files call code that is not part of them. The board behind
    the bus, the logging functions and the constructor of the device are
    parameters. The two methods of [device.onboard_flash], which hold the
    flash programming layer, are modelled from the specification of that
    layer; each such definition says so. *)

From Stdlib Require Import ZArith List String Lia DecimalString.
From stdpp Require Import base option list gmap strings.

Local Open Scope Z_scope.

(** ** Python values shared by both files *)

(** A raised Python exception: its class and its message. *)
Record exn := mk_exn { exn_class : string; exn_msg : string }.

Definition ValueError (msg : string) : exn := mk_exn "ValueError" msg.
Definition TypeError (msg : string) : exn := mk_exn "TypeError" msg.
Definition OverflowError (msg : string) : exn := mk_exn "OverflowError" msg.
Definition MemoryError : exn := mk_exn "MemoryError" "".

(** [sys.maxsize], the largest index of the interpreter, on a 64-bit
    build. *)
Definition sys_maxsize : Z := 2 ^ 63 - 1.

(** The error of building a list of [n] items that cannot be built:
    [OverflowError] when [n] is no index at all, [MemoryError]
    otherwise. *)
Definition allocation_error (n : Z) : exn :=
  if n >? sys_maxsize
  then OverflowError "cannot fit 'int' into an index-sized integer"
  else MemoryError.

(** Outcome of a call: a returned value or a raised exception. *)
Inductive result (A : Type) : Type :=
| Ok (a : A)
| Raise (e : exn).
Arguments Ok {A} a.
Arguments Raise {A} e.

(** [len(l)] as a Python integer. *)
Definition len {A : Type} (l : list A) : Z := Z.of_nat (length l).

(** [[x] * n]: the empty list when [n <= 0]. *)
Definition list_times {A : Type} (x : A) (n : Z) : list A :=
  replicate (Z.to_nat n) x.

(** References into the object store. *)
Abbreviation loc := positive.

(** Python code over a world of type [S]: a call returns or raises, and
    leaves a world behind in both cases. *)
Definition M (S A : Type) : Type := S -> result A * S.

Definition ret {S A} (a : A) : M S A := fun s => (Ok a, s).

Definition raise {S A} (e : exn) : M S A := fun s => (Raise e, s).

Definition bind {S A B} (m : M S A) (k : A -> M S B) : M S B :=
  fun s => match m s with
           | (Ok a, s') => k a s'
           | (Raise e, s') => (Raise e, s')
           end.

#[global] Instance M_ret {S} : MRet (M S) := @ret S.
#[global] Instance M_bind {S} : MBind (M S) := fun A B k m => bind m k.

(** The code [m] leaves a part [proj] of the world as it found it,
    whether it returns or raises. *)
Definition keeps {S X A} (proj : S -> X) (m : M S A) : Prop :=
  forall s, proj (m s).2 = proj s.

Module SPI.

(** Request numbers of [greatfet.protocol.vendor_requests] used by the bus. *)
Inductive vendor_request := SPI_INIT | SPI_WRITE | SPI_READ.

(** One call made on the board, with the arguments it carried:
    [CallOut r data] is [board.vendor_request_out(r, data=data)] and
    [CallIn r n] is [board.vendor_request_in(r, length=n)]. *)
Inductive call :=
| CallOut (request : vendor_request) (data : option (list Z))
| CallIn (request : vendor_request) (length : Z).

Section Bus.

(** State of the device behind the board object: the USB link and the
    firmware. *)
Context {T : Type}.

(** The board, a collaborator of [SPIBus] known only through its two
    request methods, either of which may raise. It is handed the contents
    of a payload and has no access to the object store. *)
Record Board := {
  vendor_request_out : vendor_request -> option (list Z) -> T -> result unit * T;
  vendor_request_in : vendor_request -> Z -> T -> result (list Z) * T
}.

(** The attributes of an [SPIBus] object. The registry of devices is
    kept with the bus, not in the store of list objects: a call that
    hands the registry itself to [transmit] as its data is outside what
    is modelled. *)
Record SPIBus := {
  board : Board;
  buffer_size : Z;
  devices : list loc
}.

(** The world a method of the bus runs in: the bus object [self], the
    store of list objects, the calls made on the board so far (oldest
    first), the state of the device behind the board, and [memory], the
    number of items of the longest list the interpreter has room for. *)
Record state := {
  self : SPIBus;
  heap : gmap loc (list Z);
  calls : list call;
  wire : T;
  memory : Z
}.

Definition with_heap (h : gmap loc (list Z)) (s : state) : state :=
  {| self := self s; heap := h; calls := calls s; wire := wire s;
     memory := memory s |}.

Definition with_self (b : SPIBus) (s : state) : state :=
  {| self := b; heap := heap s; calls := calls s; wire := wire s;
     memory := memory s |}.

Definition with_call (c : call) (t : T) (s : state) : state :=
  {| self := self s; heap := heap s; calls := calls s ++ [c]; wire := t;
     memory := memory s |}.

(** The longest list that can be built: what the interpreter has room
    for, never more than [sys.maxsize] items. A host that drives the bus
    holds at least one buffer of the board: worlds in which a list of
    [buffer_size] items cannot be built are not modelled. *)
Definition list_limit (s : state) : Z :=
  Z.max (buffer_size (self s)) (Z.min (memory s) sys_maxsize).

(** [len(data)] for a reference; a reference bound to no list object has
    no length. *)
Definition len_ref (data : loc) : M state Z :=
  fun s => match heap s !! data with
           | Some l => (Ok (len l), s)
           | None => (Raise (TypeError "object has no len()"), s)
           end.

(** [[x] * n]: a new list, if it can be built. *)
Definition times (x : Z) (n : Z) : M state (list Z) :=
  fun s => if n >? list_limit s
           then (Raise (allocation_error n), s)
           else (Ok (list_times x n), s).

(** [data.extend(xs)]: the list object itself grows, if there is room
    for the longer list; it is left as it is otherwise. *)
Definition extend (data : loc) (xs : list Z) : M state unit :=
  fun s => match heap s !! data with
           | Some l =>
               if len l + len xs >? list_limit s
               then (Raise MemoryError, s)
               else (Ok tt, with_heap (<[data := l ++ xs]> (heap s)) s)
           | None => (Raise (TypeError "object has no attribute extend"), s)
           end.

(** [self.buffer_size]. *)
Definition get_buffer_size : M state Z := fun s => (Ok (buffer_size (self s)), s).

(** [self.board.vendor_request_out(request)], without a payload. *)
Definition board_request_out (request : vendor_request) : M state unit :=
  fun s => let (r, t) := vendor_request_out (board (self s)) request None (wire s) in
           (r, with_call (CallOut request None) t s).

(** [self.board.vendor_request_out(request, data=data)]: the board is
    handed the list object and sends its current contents. *)
Definition board_request_out_data (request : vendor_request) (data : loc) : M state unit :=
  fun s => match heap s !! data with
           | Some l =>
               let (r, t) := vendor_request_out (board (self s)) request (Some l) (wire s) in
               (r, with_call (CallOut request (Some l)) t s)
           | None => (Raise (TypeError "object is not a sequence"), s)
           end.

(** [self.board.vendor_request_in(request, length=length)]. *)
Definition board_request_in (request : vendor_request) (length : Z) : M state (list Z) :=
  fun s => let (r, t) := vendor_request_in (board (self s)) request length (wire s) in
           (r, with_call (CallIn request length) t s).

(** [SPIBus.__init__(self, board, name, buffer_size)]: the fresh bus and
    the world after the constructor ran, on a device in state [t] and an
    interpreter with room for [room] items. The display name is not
    stored. *)
Definition init (b : Board) (name : string) (buffer_size : Z)
    (h : gmap loc (list Z)) (t : T) (room : Z) : result unit * state :=
  board_request_out SPI_INIT
    {| self := {| board := b; buffer_size := buffer_size; devices := [] |};
       heap := h; calls := []; wire := t; memory := room |}.

(** [SPIBus.attach_device(self, device)]. *)
Definition attach_device (device : loc) : M state unit :=
  fun s => (Ok tt,
            with_self {| board := board (self s);
                         buffer_size := buffer_size (self s);
                         devices := devices (self s) ++ [device] |} s).

Definition capacity_message : string :=
  "Tried to send/receive more than the size of the receive buffer.".

(** [SPIBus.transmit(self, data, receive_length=None)]. *)
Definition transmit (data : loc) (receive_length : option Z) : M state (list Z) :=
  receive_length ← match receive_length with
                    | None => len_ref data
                    | Some n => ret n
                    end;
  n ← len_ref data;
  (if receive_length >? n
   then padding ← ret (receive_length - n);
        zeros ← times 0 padding;
        extend data zeros
   else ret tt);;
  n ← len_ref data;
  size ← get_buffer_size;
  if n >? size then raise (ValueError capacity_message)
  else
    board_request_out_data SPI_WRITE data;;
    if receive_length >? 0
    then board_request_in SPI_READ receive_length
    else ret [].

(** The length a call asks to receive: [receive_length], or [len(data)]
    when it is left out. *)
Definition requested (receive_length : option Z) (d : list Z) : Z :=
  default (len d) receive_length.

(** The contents of [data] once it has been extended to [n] items. *)
Definition padded (d : list Z) (n : Z) : list Z :=
  d ++ list_times 0 (n - len d).

(** The calls a run adds to the log: [cs] are the calls made from [s] to [s']. *)
Definition issued (s s' : state) (cs : list call) : Prop :=
  calls s' = calls s ++ cs.

(** The list [d] can be brought to [n] items: it has them already, or
    the longer list can be built. *)
Definition can_pad (s : state) (d : list Z) (n : Z) : Prop :=
  n <= len d \/ n <= list_limit s.

(** The error of a padding to [n] items that cannot be built: that of
    the list of zeros, or that of the longer list. *)
Definition padding_error (s : state) (d : list Z) (n : Z) : exn :=
  if n - len d >? list_limit s then allocation_error (n - len d) else MemoryError.

(** What [transmit] does on a list object holding [d], written without
    the monad: the outcome is decided by the room for the padding, the
    padded length, the answer of the write and the answer of the read. *)
Definition transmit_outcome (s : state) (data : loc) (d : list Z)
    (receive_length : option Z)
    : result (list Z) * state :=
  let n := requested receive_length d in
  if (n >? len d) && (n >? list_limit s) then (Raise (padding_error s d n), s)
  else
  let p := padded d n in
  let s1 := with_heap (<[data := p]> (heap s)) s in
  if len p >? buffer_size (self s) then (Raise (ValueError capacity_message), s1)
  else
    let (w, t1) := vendor_request_out (board (self s)) SPI_WRITE (Some p) (wire s) in
    let s2 := with_call (CallOut SPI_WRITE (Some p)) t1 s1 in
    match w with
    | Raise e => (Raise e, s2)
    | Ok _ =>
        if n >? 0
        then let (r, t2) := vendor_request_in (board (self s)) SPI_READ n t1 in
             (r, with_call (CallIn SPI_READ n) t2 s2)
        else (Ok [], s2)
    end.

(** [for device in ds: self.attach_device(device)]. *)
Fixpoint attach_all (ds : list loc) : M state unit :=
  match ds with
  | [] => ret tt
  | device :: ds => attach_device device;; attach_all ds
  end.

(** A board that answers: a write is taken, and a read of [n >= 0]
    bytes gives [n] bytes. *)
Definition answers (b : Board) : Prop :=
  (forall request data t, exists t', vendor_request_out b request data t = (Ok tt, t'))
  /\ (forall request n t, 0 <= n ->
       exists r t', vendor_request_in b request n t = (Ok r, t') /\ len r = n).

End Bus.

Arguments Board T : clear implicits.
Arguments SPIBus T : clear implicits.
Arguments state T : clear implicits.

(** *** Boards to run the bus on *)

(** A board whose SPI lines are looped back: what was written last is
    what is read, zero filled up to the length asked for. *)
Definition loopback_board : Board (list Z) := {|
  vendor_request_out := fun _ data t => (Ok tt, default t data);
  vendor_request_in := fun _ n t =>
    (Ok (take (Z.to_nat n) (t ++ list_times 0 n)), t)
|}.

Definition usb_error : exn := mk_exn "USBError" "No such device".

(** A board that was unplugged: every request raises. *)
Definition unplugged_board : Board unit := {|
  vendor_request_out := fun _ _ t => (Raise usb_error, t);
  vendor_request_in := fun _ _ t => (Raise usb_error, t)
|}.

(** A bus with the default buffer size on the looped-back board, and one
    list object [data] in the store. *)
Definition loopback_bus (size : Z) : SPIBus (list Z) :=
  {| board := loopback_board; buffer_size := size; devices := [] |}.

Definition loopback_world (size : Z) (data : loc) (d : list Z) : state (list Z) :=
  {| self := loopback_bus size; heap := {[ data := d ]}; calls := []; wire := [];
     memory := sys_maxsize |}.

(** The same on the unplugged board. *)
Definition unplugged_world (size : Z) (data : loc) (d : list Z) : state unit :=
  {| self := {| board := unplugged_board; buffer_size := size; devices := [] |};
     heap := {[ data := d ]}; calls := []; wire := tt; memory := sys_maxsize |}.

(** The looped-back bus on a host with room for a thousand items. *)
Definition small_world (size : Z) (data : loc) (d : list Z) : state (list Z) :=
  {| self := loopback_bus size; heap := {[ data := d ]}; calls := []; wire := [];
     memory := 1000 |}.

End SPI.

(** * The flash utility, [greatfet_firmware.py] *)

Module Firmware.

(** Maximum length to allow, for now. *)
Definition MAX_FLASH_LENGTH : Z := 0x100000.

(** [errno.ENODEV] and [errno.ENOSYS]. *)
Definition ENODEV : Z := 19.
Definition ENOSYS : Z := 38.

(** [str(n)] for an integer, as [format] prints it. *)
Definition str (n : Z) : string := NilZero.string_of_int (Z.to_int n).

Definition CR : string := String (Ascii.ascii_of_nat 13) EmptyString.
Definition LF : string := String (Ascii.ascii_of_nat 10) EmptyString.

(** Modelled from the spec: the [OutOfRange] condition of the flash
    programming layer, whose code is absent from the sources at hand. *)
Definition OutOfRange : exn := mk_exn "OutOfRange" "".

Definition IOError (filename : string) : exn := mk_exn "IOError" filename.
Definition AttributeError (name : string) : exn := mk_exn "AttributeError" name.
Definition SystemExit (code : Z) : exn := mk_exn "SystemExit" (str code).

(** What the utility does that can be seen from outside the process.
    [FlashRead] and [FlashWrite] are the calls of the two methods of
    [device.onboard_flash], with their arguments; [Erase], [ReadChunk]
    and [WriteChunk] are the requests sent over the flash transport;
    [Progress] is a call of the progress callback; [Reset] is
    [device.reset()]. *)
Inductive event :=
| FlashRead (address length : Z)
| FlashWrite (data : list Z) (address : Z) (erase_first : bool)
| Erase (address length : Z)
| ReadChunk (offset length : Z)
| WriteChunk (offset : Z) (chunk : list Z)
| Progress (bytes_done bytes_total : Z)
| Reset.

(** The requests that go over the flash transport. *)
Definition is_transport_call (e : event) : bool :=
  match e with
  | Erase _ _ | ReadChunk _ _ | WriteChunk _ _ => true
  | _ => false
  end.

Definition is_write_chunk (e : event) : bool :=
  match e with
  | WriteChunk _ _ => true
  | _ => false
  end.

(** A logging function of [greatfet.utils], called as
    [log_function(text)] or [log_function(text, end=e)]: the text it puts
    on the standard output. *)
Definition logger : Type := string -> option string -> string.

(** The command line after [parse_args], with the defaults the parser
    declares. *)
Record Args := {
  address : Z;
  length : Z;
  read : string;
  write : string;
  serial : option string;
  quiet : bool;
  reset : bool
}.

Definition default_args : Args := {|
  address := 0;
  length := MAX_FLASH_LENGTH;
  read := "";
  write := "";
  serial := None;
  quiet := false;
  reset := false
|}.

Section Flash.

(** State of the flash chip and of the link to it. *)
Context {F : Type}.

(** Modelled from the spec: the transport of the flash, absent from the
    sources at hand. A blocking request and response primitive with an
    erase, a read and a write addressed by offset and length; each may
    fail with a transport error. *)
Record FlashTransport := {
  flash_erase : Z -> Z -> F -> result unit * F;
  flash_read : Z -> Z -> F -> result (list Z) * F;
  flash_write : Z -> list Z -> F -> result unit * F
}.

(** Modelled from the spec: the configuration of the flash programming
    layer, the object behind [device.onboard_flash]: its transport, the
    largest chunk the transport takes in one call and the configured
    maximum flash length. *)
Record OnboardFlash := {
  transport : FlashTransport;
  max_chunk : positive;
  max_flash_length : Z
}.

(** A GreatFET board as the utility uses it. *)
Record Device := {
  board_name : string;
  serial_number : string;
  onboard_flash : option OnboardFlash;
  device_reset : F -> result unit * F
}.

(** The world the utility runs in: the file system, the two output
    streams, the events so far (oldest first) and the flash. The file
    system is the contents of the files there are, and the paths that
    cannot be opened for reading ([unreadable]: no permission) or for
    writing ([unwritable]: no such directory, no permission). *)
Record world := {
  files : gmap string (list Z);
  unreadable : string -> bool;
  unwritable : string -> bool;
  stdout : string;
  stderr : string;
  trace : list event;
  flash : F
}.

Definition with_files (fs : gmap string (list Z)) (s : world) : world :=
  {| files := fs; unreadable := unreadable s; unwritable := unwritable s;
     stdout := stdout s; stderr := stderr s;
     trace := trace s; flash := flash s |}.

Definition with_stdout (out : string) (s : world) : world :=
  {| files := files s; unreadable := unreadable s; unwritable := unwritable s;
     stdout := out; stderr := stderr s;
     trace := trace s; flash := flash s |}.

Definition with_stderr (err : string) (s : world) : world :=
  {| files := files s; unreadable := unreadable s; unwritable := unwritable s;
     stdout := stdout s; stderr := err;
     trace := trace s; flash := flash s |}.

Definition with_event (e : event) (t : F) (s : world) : world :=
  {| files := files s; unreadable := unreadable s; unwritable := unwritable s;
     stdout := stdout s; stderr := stderr s;
     trace := trace s ++ [e]; flash := t |}.

Definition progress_callback : Type := Z -> Z -> M world unit.

(** A callback that leaves the events and the flash alone, as one that
    prints does. *)
Definition bystander (callback : progress_callback) : Prop :=
  forall bytes_done bytes_total s,
    trace (callback bytes_done bytes_total s).2 = trace s
    /\ flash (callback bytes_done bytes_total s).2 = flash s.

(** *** The flash programming layer *)

(** An event is added to the trace. *)
Definition record (e : event) : M world unit :=
  fun s => (Ok tt, with_event e (flash s) s).

(** Modelled from the spec: the three requests of the flash transport,
    absent from the sources at hand, as the layer issues them; each is
    added to the trace, whether it succeeds or not. *)
Definition transport_erase (fl : OnboardFlash) (address length : Z) : M world unit :=
  fun s => let (r, t) := flash_erase (transport fl) address length (flash s) in
           (r, with_event (Erase address length) t s).

Definition transport_read (fl : OnboardFlash) (offset length : Z) : M world (list Z) :=
  fun s => let (r, t) := flash_read (transport fl) offset length (flash s) in
           (r, with_event (ReadChunk offset length) t s).

Definition transport_write (fl : OnboardFlash) (offset : Z) (chunk : list Z) : M world unit :=
  fun s => let (r, t) := flash_write (transport fl) offset chunk (flash s) in
           (r, with_event (WriteChunk offset chunk) t s).

(** Modelled from the spec: a progress event, absent from the sources at
    hand: the callback is called with [(bytes_done, bytes_total)] on the
    calling thread. *)
Definition emit_progress (callback : progress_callback) (bytes_done bytes_total : Z)
    : M world unit :=
  record (Progress bytes_done bytes_total);; callback bytes_done bytes_total.

(** Modelled from the spec: the loop of the read. While [remaining > 0]:
    read [min(remaining, max_chunk)] bytes at [offset], append them, emit
    progress [length - remaining] after the chunk, advance. [fuel] bounds
    the number of chunks. *)
Fixpoint read_chunks (fuel : nat) (fl : OnboardFlash) (callback : progress_callback)
    (length offset remaining : Z) (buffer : list Z) : M world (list Z) :=
  if remaining >? 0 then
    match fuel with
    | O => ret buffer
    | S fuel =>
        let n := Z.min remaining (Z.pos (max_chunk fl)) in
        chunk ← transport_read fl offset n;
        emit_progress callback (length - (remaining - n)) length;;
        read_chunks fuel fl callback length (offset + n) (remaining - n) (buffer ++ chunk)
    end
  else ret buffer.

(** Modelled from the spec: the read of a flash region. A region that
    ends beyond the configured maximum is refused before any transport
    call; a region of length zero makes no transport call and emits the
    one progress event [(0, 0)]. *)
Definition onboard_flash_read (fl : OnboardFlash) (address length : Z)
    (callback : progress_callback) : M world (list Z) :=
  if address + length >? max_flash_length fl then raise OutOfRange
  else if length =? 0 then emit_progress callback 0 0;; ret []
  else read_chunks (Z.to_nat length) fl callback length address length [].

(** Modelled from the spec: the loop of the write, chunked as the read
    is; [rest] is the data not written yet. *)
Fixpoint write_chunks (fuel : nat) (fl : OnboardFlash) (callback : progress_callback)
    (length offset : Z) (rest : list Z) : M world unit :=
  if len rest >? 0 then
    match fuel with
    | O => ret tt
    | S fuel =>
        let n := Z.min (len rest) (Z.pos (max_chunk fl)) in
        transport_write fl offset (take (Z.to_nat n) rest);;
        emit_progress callback (length - (len rest - n)) length;;
        write_chunks fuel fl callback length (offset + n) (drop (Z.to_nat n) rest)
    end
  else ret tt.

(** Modelled from the spec: the write of a flash region. The same range
    check and zero-length case as the read; with [erase_first] the whole
    region is erased in one transport call before the first chunk, and a
    failed erase ends the write. *)
Definition onboard_flash_write (fl : OnboardFlash) (data : list Z) (address : Z)
    (erase_first : bool) (callback : progress_callback) : M world unit :=
  if address + len data >? max_flash_length fl then raise OutOfRange
  else if len data =? 0 then emit_progress callback 0 0
  else
    (if erase_first then transport_erase fl address (len data) else ret tt);;
    write_chunks (List.length data) fl callback (len data) address data.

(** *** The utility *)

(** [log_function(text)] and [log_function(text, end=e)]. *)
Definition log (log_function : logger) (text : string) (e : option string)
    : M world unit :=
  fun s => (Ok tt, with_stdout (stdout s +:+ log_function text e) s).

(** [parser.print_help()]: the help text goes to the standard output. *)
Definition print_help (help : string) : M world unit :=
  fun s => (Ok tt, with_stdout (stdout s +:+ help) s).

(** [print(text, file=sys.stderr)]. *)
Definition print_stderr (text : string) : M world unit :=
  fun s => (Ok tt, with_stderr (stderr s +:+ text +:+ LF) s).

(** [sys.exit(code)]. *)
Definition sys_exit {A} (code : Z) : M world A := raise (SystemExit code).

(** [open(filename, 'wb')]: the file is created, or emptied; a path
    that cannot be opened raises and no file is made. *)
Definition open_wb (filename : string) : M world unit :=
  fun s => if unwritable s filename
           then (Raise (IOError filename), s)
           else (Ok tt, with_files (<[filename := []]> (files s)) s).

(** [flash_data.tofile(f)] on the file just opened for writing. *)
Definition tofile (filename : string) (flash_data : list Z) : M world unit :=
  fun s => (Ok tt,
            with_files (<[filename := default [] (files s !! filename) ++ flash_data]>
                          (files s)) s).

(** [open(filename, 'rb')] followed by [f.read()]: a file that is not
    there, or cannot be opened, raises. *)
Definition read_file (filename : string) : M world (list Z) :=
  fun s => if unreadable s filename
           then (Raise (IOError filename), s)
           else match files s !! filename with
                | Some contents => (Ok contents, s)
                | None => (Raise (IOError filename), s)
                end.

(** [device.onboard_flash], an attribute a board may not have. *)
Definition get_onboard_flash (device : Device) : M world OnboardFlash :=
  match onboard_flash device with
  | Some fl => ret fl
  | None => raise (AttributeError "onboard_flash")
  end.

(** [device.onboard_flash.read(address, length, progress_callback=callback)]. *)
Definition device_onboard_flash_read (device : Device) (address length : Z)
    (callback : progress_callback) : M world (list Z) :=
  fl ← get_onboard_flash device;
  record (FlashRead address length);;
  onboard_flash_read fl address length callback.

(** [device.onboard_flash.write(data, address, erase_first=erase_first,
    progress_callback=callback)]. *)
Definition device_onboard_flash_write (device : Device) (data : list Z) (address : Z)
    (erase_first : bool) (callback : progress_callback) : M world unit :=
  fl ← get_onboard_flash device;
  record (FlashWrite data address erase_first);;
  onboard_flash_write fl data address erase_first callback.

(** [spi_flash_read(device, filename, address, length, log_function)]. *)
Definition spi_flash_read (device : Device) (filename : string) (address length : Z)
    (log_function : logger) : M world unit :=
  let print_progress : progress_callback := fun bytes_read bytes_total =>
    log log_function
      ("Read " +:+ str bytes_read +:+ " bytes of " +:+ str bytes_total +:+ ".")
      (Some CR) in
  open_wb filename;;
  flash_data ← device_onboard_flash_read device address length print_progress;
  tofile filename flash_data;;
  log log_function "" None.

(** [spi_flash_write(device, filename, address, log_function)]. *)
Definition spi_flash_write (device : Device) (filename : string) (address : Z)
    (log_function : logger) : M world unit :=
  let print_progress : progress_callback := fun bytes_written bytes_total =>
    log log_function
      ("Written " +:+ str bytes_written +:+ " bytes of " +:+ str bytes_total +:+ ".")
      (Some CR) in
  flash_data ← read_file filename;
  device_onboard_flash_write device flash_data address true print_progress;;
  log log_function "" None.

(** [device.reset()]. *)
Definition reset_device (device : Device) : M world unit :=
  fun s => let (r, t) := device_reset device (flash s) in
           (r, with_event Reset t s).

(** A string as a condition: true unless empty. *)
Definition truthy (text : string) : bool :=
  match text with
  | EmptyString => false
  | _ => true
  end.

Section Main.

(** The two logging functions of [greatfet.utils], the constructor
    [GreatFET(serial_number=...)], which finds a board or raises
    [DeviceNotFoundError], and the help text of the argument parser. *)
Variables log_silent log_verbose : logger.
Variable GreatFET : option string -> option Device.
Variable help : string.

(** [main()], from the parsed arguments on. *)
Definition main (args : Args) : M world unit :=
  if negb (truthy (read args) || truthy (write args) || reset args)
  then print_help help;; sys_exit 0
  else
    let log_function := if quiet args then log_silent else log_verbose in
    log log_function "Trying to find a GreatFET device..." None;;
    device ← match GreatFET (serial args) with
             | Some device =>
                 log log_function
                   (board_name device +:+ " found. (Serial number: "
                    +:+ serial_number device +:+ ")") None;;
                 ret device
             | None =>
                 (if truthy (default "" (serial args))
                  then print_stderr ("No GreatFET board found matching serial '"
                                     +:+ default "" (serial args) +:+ "'.")
                  else print_stderr "No GreatFET board found!");;
                 sys_exit ENODEV
             end;
    match onboard_flash device with
    | None =>
        print_stderr ("The attached GreatFET (" +:+ board_name device
                      +:+ ") doesn't appear to have an SPI flash to program!");;
        sys_exit ENOSYS
    | Some _ =>
        (if truthy (write args)
         then log log_function "Writing data to SPI flash..." None;;
              spi_flash_write device (write args) (address args) log_function;;
              log log_function "Write complete!" None;;
              if negb (reset args)
              then log log_function
                     "Reset not specified; new firmware will not start until next reset."
                     None
              else ret tt
         else ret tt);;
        (if truthy (read args)
         then log log_function "Reading data from SPI flash..." None;;
              spi_flash_read device (read args) (address args) (length args) log_function;;
              log log_function "Read complete!" None
         else ret tt);;
        if reset args
        then log log_function "Resetting GreatFET..." None;;
             reset_device device;;
             log log_function "Reset complete!" None
        else ret tt
    end.

End Main.

(** The events a run adds: [evs] are the events from [s] to [s']. *)
Definition emitted (s s' : world) (evs : list event) : Prop :=
  trace s' = trace s ++ evs.


Definition write_print_progress (log_function : logger) : progress_callback :=
  fun bytes_written bytes_total =>
    log log_function
      ("Written " +:+ str bytes_written +:+ " bytes of " +:+ str bytes_total +:+ ".")
      (Some CR).

(** The events of the flash layer itself: its transport requests and
    its progress reports. *)
Definition is_layer_event (e : event) : bool :=
  match e with
  | Erase _ _ | ReadChunk _ _ | WriteChunk _ _ | Progress _ _ => true
  | _ => false
  end.

(** A part of the world that adding an event does not touch. *)
Definition untouched {X} (proj : world -> X) : Prop :=
  forall e t s, proj (with_event e t s) = proj s.

(** Every run of [m] adds events that together satisfy [Q]. *)
Definition shaped {A} (Q : list event -> Prop) (m : M world A) : Prop :=
  forall s, exists evs, emitted s (m s).2 evs /\ Q evs.

(** The events of a write through the utility: none, or the call of the
    method with [erase_first] set followed by events of the flash layer. *)
Definition write_events (address : Z) (evs : list event) : Prop :=
  evs = []
  \/ exists data rest,
       evs = FlashWrite data address true :: rest
       /\ Forall (fun e => is_layer_event e = true) rest.

(** The events of a read through the utility. *)
Definition read_events (address length : Z) (evs : list event) : Prop :=
  evs = []
  \/ exists rest,
       evs = FlashRead address length :: rest
       /\ Forall (fun e => is_layer_event e = true) rest.

(** A logging function that prints nothing. *)
Definition silent (log_function : logger) : Prop :=
  forall text e, log_function text e = "".

(** The command line asks for something: a read, a write or a reset. *)
Definition has_option (args : Args) : bool :=
  truthy (read args) || truthy (write args) || reset args.

(** The events of a run of [main]: those of the write, if one was asked
    for, then those of the read, if one was asked for, then the reset,
    if one was asked for. *)
Definition main_events (args : Args) (evs : list event) : Prop :=
  exists w rd z,
    evs = w ++ rd ++ z
    /\ write_events (address args) w /\ (truthy (write args) = false -> w = [])
    /\ read_events (address args) (length args) rd
    /\ (truthy (read args) = false -> rd = [])
    /\ (z = [] \/ (reset args = true /\ z = [Reset])).

(** The command line with another [--length]. *)
Definition with_length (n : Z) (args : Args) : Args :=
  {| address := address args; length := n; read := read args; write := write args;
     serial := serial args; quiet := quiet args; reset := reset args |}.

End Flash.

Arguments FlashTransport F : clear implicits.
Arguments OnboardFlash F : clear implicits.
Arguments Device F : clear implicits.
Arguments world F : clear implicits.

(** *** A flash to run the utility on *)

(** A flash held in memory, as the list of the bytes programmed so far,
    newest first, each with its address; an erased byte reads [255]. *)
Definition ram_byte (m : list (Z * Z)) (i : Z) : Z :=
  default 255 (snd <$> List.find (fun ix => ix.1 =? i) m).

Definition ram_flash : FlashTransport (list (Z * Z)) := {|
  flash_erase := fun address length m =>
    (Ok tt, ((fun i => (i, 255)) <$> seqZ address length) ++ m);
  flash_read := fun offset length m =>
    (Ok (ram_byte m <$> seqZ offset length), m);
  flash_write := fun offset chunk m =>
    (Ok tt, zip (seqZ offset (len chunk)) chunk ++ m)
|}.

Definition flash_error : exn := mk_exn "TransportFailure" "erase timed out".

(** The same flash with an erase that fails. *)
Definition stuck_flash : FlashTransport (list (Z * Z)) := {|
  flash_erase := fun _ _ m => (Raise flash_error, m);
  flash_read := flash_read ram_flash;
  flash_write := flash_write ram_flash
|}.

(** The flash layer over a transport, with the default maximum length. *)
Definition flash_over (tr : FlashTransport (list (Z * Z))) (chunk : positive)
    : OnboardFlash (list (Z * Z)) :=
  {| transport := tr; max_chunk := chunk; max_flash_length := MAX_FLASH_LENGTH |}.

Definition board_with (tr : FlashTransport (list (Z * Z))) (chunk : positive)
    : Device (list (Z * Z)) := {|
  board_name := "GreatFET One";
  serial_number := "000057cc67e630187657";
  onboard_flash := Some (flash_over tr chunk);
  device_reset := fun m => (Ok tt, m)
|}.

(** Two logging functions to run the utility with: one that prints
    nothing and one that prints the text and the end given, a line feed
    by default. *)
Definition log_silent : logger := fun _ _ => "".
Definition log_verbose : logger := fun text e => text +:+ default LF e.

(** A board without an SPI flash. *)
Definition bare_board : Device (list (Z * Z)) := {|
  board_name := "GreatFET Zero";
  serial_number := "0000";
  onboard_flash := None;
  device_reset := fun m => (Ok tt, m)
|}.

(** The command line [-w firmware.bin -q]. *)
Definition quiet_write_args : Args := {|
  address := 0; length := MAX_FLASH_LENGTH; read := ""; write := "firmware.bin";
  serial := None; quiet := true; reset := false
|}.

(** No board is attached. *)
Definition no_board : option string -> option (Device (list (Z * Z))) :=
  fun _ => None.

(** A world with one file, [firmware.bin], and an empty flash. *)
Definition world_with (contents : list Z) : world (list (Z * Z)) := {|
  files := {[ "firmware.bin" := contents ]};
  unreadable := fun _ => false;
  unwritable := fun _ => false;
  stdout := ""; stderr := ""; trace := []; flash := []
|}.

(** The same world, in which nothing can be opened for writing under
    [nodir/]. *)
Definition locked_world (contents : list Z) : world (list (Z * Z)) := {|
  files := {[ "firmware.bin" := contents ]};
  unreadable := fun _ => false;
  unwritable := String.prefix "nodir/";
  stdout := ""; stderr := ""; trace := []; flash := []
|}.

End Firmware.

(** * Running monadic code *)

Section MonadFacts.
Context {S : Type}.

Lemma bind_ok {A B} (m : M S A) (k : A -> M S B) s a s1 :
  m s = (Ok a, s1) -> (m ≫= k) s = k a s1.
Proof. intros E. unfold mbind, M_bind, bind. by rewrite E. Qed.

Lemma bind_raise {A B} (m : M S A) (k : A -> M S B) s e s1 :
  m s = (Raise e, s1) -> (m ≫= k) s = (Raise e, s1).
Proof. intros E. unfold mbind, M_bind, bind. by rewrite E. Qed.

Lemma bind_inv {A B} (m : M S A) (k : A -> M S B) s r s' :
  (m ≫= k) s = (r, s') ->
  (exists a s1, m s = (Ok a, s1) /\ k a s1 = (r, s'))
  \/ (exists e, m s = (Raise e, s') /\ r = Raise e).
Proof.
  unfold mbind, M_bind, bind. destruct (m s) as [[a|e] s1]; intros E.
  - left. by exists a, s1.
  - right. inversion E; subst. by exists e.
Qed.

End MonadFacts.

(** ** Parts of the world a computation keeps *)

Section KeepsFacts.
Context {S X : Type}.
Implicit Types (proj : S -> X).

Lemma keeps_ret {A} proj (a : A) : keeps proj (ret a).
Proof. intros s. done. Qed.

Lemma keeps_raise {A} proj e : keeps proj (raise (A := A) e).
Proof. intros s. done. Qed.

Lemma keeps_bind {A B} proj (m : M S A) (k : A -> M S B) :
  keeps proj m -> (forall a, keeps proj (k a)) -> keeps proj (m ≫= k).
Proof.
  intros Hm Hk s. unfold mbind, M_bind, bind.
  specialize (Hm s). destruct (m s) as [[a|e] s1]; simpl in Hm.
  - by rewrite Hk.
  - done.
Qed.

End KeepsFacts.

(** * Properties of the SPI bus *)

Module SPIFacts.
Import SPI.

Section Bus.
Context {T : Type}.
Implicit Types (s : state T) (d : list Z) (data : loc).

Lemma len_nonneg {A} (l : list A) : 0 <= len l.
Proof. unfold len. lia. Qed.

Lemma len_app d1 d2 : len (d1 ++ d2) = len d1 + len d2.
Proof. unfold len. rewrite length_app. lia. Qed.

Lemma len_list_times (x : Z) n : len (list_times x n) = Z.max 0 n.
Proof. unfold len, list_times. rewrite length_replicate. lia. Qed.

Lemma len_padded d n : len (padded d n) = Z.max (len d) n.
Proof. unfold padded. rewrite len_app, len_list_times. lia. Qed.

Lemma padded_short d n : n <= len d -> padded d n = d.
Proof.
  intros Hn. unfold padded, list_times.
  replace (Z.to_nat (n - len d)) with 0%nat by lia.
  apply app_nil_r.
Qed.

Lemma with_heap_same s data d :
  heap s !! data = Some d -> with_heap (<[data := d]> (heap s)) s = s.
Proof.
  intros Hd. destruct s as [b h c t m]; unfold with_heap; simpl in *.
  by rewrite insert_id.
Qed.

Lemma buffer_le_limit s : buffer_size (self s) <= list_limit s.
Proof. unfold list_limit. lia. Qed.

Lemma can_pad_or_not s d n : can_pad s d n \/ (len d < n /\ list_limit s < n).
Proof. unfold can_pad. lia. Qed.

Lemma can_pad_buffer s d n : n <= buffer_size (self s) -> can_pad s d n.
Proof. intros Hn. right. pose proof (buffer_le_limit s). lia. Qed.

Lemma transmit_eq s data d receive_length :
  heap s !! data = Some d ->
  transmit data receive_length s = transmit_outcome s data d receive_length.
Proof.
  intros Hd. unfold transmit_outcome.
  set (n := requested receive_length d).
  assert (Hfirst :
    (match receive_length with None => len_ref data | Some k => ret k end) s
    = (Ok n, s)).
  { subst n. destruct receive_length as [k|]; simpl; [done|].
    unfold len_ref. by rewrite Hd. }
  pose proof (len_nonneg d) as Hlen.
  unfold transmit, mbind, M_bind, bind. rewrite Hfirst.
  unfold len_ref at 1. rewrite Hd.
  destruct (Z.gtb_spec n (len d)) as [Hlong|Hshort]; simpl.
  - unfold ret at 1, times, padding_error.
    destruct (Z.gtb_spec (n - len d) (list_limit s)) as [Hbig|Hroom].
    { replace (n >? list_limit s) with true by (symmetry; apply Z.gtb_lt; lia). done. }
    unfold extend. rewrite Hd.
    rewrite len_list_times. replace (len d + Z.max 0 (n - len d)) with n by lia.
    destruct (Z.gtb_spec n (list_limit s)) as [Hfull|Hfits]; [done|].
    fold (padded d n).
    unfold len_ref, get_buffer_size, board_request_out_data, board_request_in,
      raise, ret, with_call, with_heap.
    simpl. rewrite lookup_insert_eq. simpl.
    destruct (len (padded d n) >? buffer_size (self s)); [done|].
    simpl. rewrite lookup_insert_eq.
    destruct (vendor_request_out _ _ _ _) as [[[]|e] t1]; [|done].
    destruct (n >? 0); [|done].
    simpl. by destruct (vendor_request_in _ _ _ _).
  - rewrite (padded_short d n Hshort), (with_heap_same s data d Hd).
    unfold len_ref, get_buffer_size, board_request_out_data, board_request_in,
      raise, ret, with_call.
    simpl. rewrite Hd.
    destruct (len d >? buffer_size (self s)); [done|].
    rewrite Hd.
    destruct (vendor_request_out _ _ _ _) as [[[]|e] t1]; [|done].
    destruct (n >? 0); [|done].
    simpl. by destruct (vendor_request_in _ _ _ _).
Qed.

(** A padding that cannot be built ends the call before anything else
    is done. *)
Lemma transmit_no_room s data d receive_length :
  heap s !! data = Some d ->
  let n := requested receive_length d in
  len d < n -> list_limit s < n ->
  transmit data receive_length s = (Raise (padding_error s d n), s).
Proof.
  intros Hd n Hlong Hfull. rewrite (transmit_eq s data d receive_length Hd).
  unfold transmit_outcome. fold n.
  replace (n >? len d) with true by (symmetry; apply Z.gtb_lt; lia).
  replace (n >? list_limit s) with true by (symmetry; apply Z.gtb_lt; lia).
  reflexivity.
Qed.

(** The possible runs of [transmit] when there is room for the padding,
    read off [transmit_outcome]. *)
Lemma transmit_cases s data d receive_length r s' :
  heap s !! data = Some d ->
  transmit data receive_length s = (r, s') ->
  can_pad s d (requested receive_length d) ->
  let n := requested receive_length d in
  let p := padded d n in
  let b := board (self s) in
  self s' = self s /\ heap s' = <[data := p]> (heap s) /\
  ( (buffer_size (self s) < len p /\ r = Raise (ValueError capacity_message)
     /\ calls s' = calls s /\ wire s' = wire s)
  \/ (len p <= buffer_size (self s) /\
      exists w t1, vendor_request_out b SPI_WRITE (Some p) (wire s) = (w, t1) /\
        ( (exists e, w = Raise e /\ r = Raise e
             /\ calls s' = calls s ++ [CallOut SPI_WRITE (Some p)] /\ wire s' = t1)
        \/ (w = Ok tt /\ n <= 0 /\ r = Ok []
             /\ calls s' = calls s ++ [CallOut SPI_WRITE (Some p)] /\ wire s' = t1)
        \/ (w = Ok tt /\ 0 < n /\
             exists t2, vendor_request_in b SPI_READ n t1 = (r, t2)
               /\ calls s' = calls s ++ [CallOut SPI_WRITE (Some p); CallIn SPI_READ n]
               /\ wire s' = t2) ) ) ).
Proof.
  intros Hd Hrun Hroom n p b. rewrite (transmit_eq s data d receive_length Hd) in Hrun.
  unfold transmit_outcome in Hrun. fold n p b in Hrun.
  replace ((n >? len d) && (n >? list_limit s)) with false in Hrun
    by (symmetry; apply andb_false_iff; rewrite !Z.gtb_ltb, !Z.ltb_ge;
        unfold can_pad in Hroom; fold n in Hroom; lia).
  destruct (Z.gtb_spec (len p) (buffer_size (self s))) as [Hbig|Hfit].
  { inversion Hrun; subst. simpl. split; [done|]. split; [done|]. left. done. }
  destruct (vendor_request_out b SPI_WRITE (Some p) (wire s)) as [w t1] eqn:Hw.
  destruct w as [[]|e].
  - destruct (Z.gtb_spec n 0) as [Hpos|Hnone].
    + destruct (vendor_request_in b SPI_READ n t1) as [r2 t2] eqn:Hr.
      inversion Hrun; subst. simpl. split; [done|]. split; [done|].
      right. split; [done|]. exists (Ok tt), t1. split; [done|].
      right. right. split; [done|]. split; [lia|]. exists t2.
      split; [done|]. split; [|done]. by rewrite <- app_assoc.
    + inversion Hrun; subst. simpl. split; [done|]. split; [done|].
      right. split; [done|]. exists (Ok tt), t1. split; [done|].
      right. left. done.
  - inversion Hrun; subst. simpl. split; [done|]. split; [done|].
    right. split; [done|]. exists (Raise e), t1. split; [done|].
    left. exists e. done.
Qed.

Lemma issued_nil s s' : calls s' = calls s -> issued s s' [].
Proof. intros E. unfold issued. by rewrite app_nil_r. Qed.

Lemma issued_inj s s' cs cs' : issued s s' cs -> issued s s' cs' -> cs = cs'.
Proof. unfold issued. intros E E'. rewrite E in E'. by apply app_inv_head in E'. Qed.

Lemma padding_error_not_capacity s d n :
  padding_error s d n <> ValueError capacity_message.
Proof.
  unfold padding_error, allocation_error.
  destruct (_ >? list_limit s); [destruct (_ >? sys_maxsize)|]; discriminate.
Qed.


(** C2, as the code has it. When both [len(data)] and the length to
    receive fit the buffer and the board answers, [transmit] returns
    exactly as many bytes as were asked for when that is positive, and
    the empty list after the write alone, with no read issued, when it
    is zero (or negative). *)
Theorem transmit_returns_requested_length s data d receive_length :
  heap s !! data = Some d ->
  len d <= buffer_size (self s) ->
  requested receive_length d <= buffer_size (self s) ->
  answers (board (self s)) ->
  let n := requested receive_length d in
  exists r s',
    transmit data receive_length s = (Ok r, s')
    /\ (0 < n -> len r = n)
    /\ (n <= 0 -> r = [] /\ issued s s' [CallOut SPI_WRITE (Some d)]).
Proof.
  intros Hd Hsend Hrecv [Hout Hin] n.
  destruct (transmit data receive_length s) as [r s'] eqn:Hrun.
  destruct (transmit_cases s data d receive_length r s' Hd Hrun
              (can_pad_buffer s d _ Hrecv))
    as (_ & _ & [(Hbig & _) | (_ & w & t1 & Hw & Hcase)]).
  { rewrite len_padded in Hbig. fold n in Hbig. lia. }
  fold n in Hw, Hcase.
  destruct (Hout SPI_WRITE (Some (padded d n)) (wire s)) as [t1' Hw'].
  rewrite Hw' in Hw. inversion Hw; subst w t1'.
  destruct Hcase as [(e & He & _) | [(_ & Hn & -> & Hc & _) | (_ & Hn & t2 & Hr & _)]].
  - discriminate.
  - exists [], s'. split; [done|]. split; [lia|]. intros _. split; [done|].
    pose proof (len_nonneg d).
    rewrite padded_short in Hc by lia. exact Hc.
  - destruct (Hin SPI_READ n t1) as (r' & t2' & Hr' & Hlen); [lia|].
    rewrite Hr' in Hr. inversion Hr; subst r t2'.
    exists r', s'. split; [done|]. split; [done|]. lia.
Qed.

(** C3. When the length to receive is larger than [len(data)], the write
    carries the original items followed by that many zeros less
    [len(data)]; it is the only write and the first call of the
    transfer. A transfer refused for its size writes nothing. *)
Theorem transmit_pads_with_zeros s data d n r s' :
  heap s !! data = Some d ->
  len d < n ->
  transmit data (Some n) s = (r, s') ->
  let p := d ++ replicate (Z.to_nat (n - len d)) 0 in
  (n <= buffer_size (self s) ->
     exists rest, issued s s' (CallOut SPI_WRITE (Some p) :: rest)
       /\ forall c, c ∈ rest -> c = CallIn SPI_READ n)
  /\ (buffer_size (self s) < n -> issued s s' []).
Proof.
  intros Hd Hlong Hrun p.
  destruct (can_pad_or_not s d n) as [Hroom | [_ Hfull]].
  2:{ rewrite (transmit_no_room s data d (Some n) Hd Hlong Hfull) in Hrun.
      injection Hrun as <- <-. pose proof (buffer_le_limit s).
      split; [lia|]. intros _. by apply issued_nil. }
  destruct (transmit_cases s data d (Some n) r s' Hd Hrun Hroom)
    as (_ & _ & Hcase).
  simpl in Hcase. fold (list_times 0 (n - len d)) in p. fold (padded d n) in p.
  assert (Hlen : len p = n) by (subst p; rewrite len_padded; lia).
  fold p in Hcase. rewrite Hlen in Hcase.
  destruct Hcase as [(Hbig & _ & Hc & _) | (Hfit & w & t1 & _ & Hcase)].
  - split; [lia|]. intros _. by apply issued_nil.
  - split; [|lia]. intros _.
    destruct Hcase as [(e & _ & _ & Hc & _) | [(_ & _ & _ & Hc & _) | (_ & _ & t2 & _ & Hc & _)]].
    + exists []. split; [exact Hc|]. intros c Hin. by apply elem_of_nil in Hin.
    + exists []. split; [exact Hc|]. intros c Hin. by apply elem_of_nil in Hin.
    + exists [CallIn SPI_READ n]. split; [exact Hc|].
      intros c Hin. by apply list_elem_of_singleton in Hin.
Qed.

(** C4. A call that returns has made exactly one write, carrying the
    whole padded payload, and after it exactly one read of the length
    asked for when that is positive, and nothing else; what it returns is
    what the read gave. An error raised by the write or by the read
    reaches the caller as it is, and no call follows it. *)
Theorem transmit_one_write_then_one_read s data d receive_length :
  heap s !! data = Some d ->
  let n := requested receive_length d in
  let p := padded d n in
  let b := board (self s) in
  (forall r s', transmit data receive_length s = (Ok r, s') ->
     len p = Z.max (len d) n
     /\ issued s s' (CallOut SPI_WRITE (Some p)
                      :: if 0 <? n then [CallIn SPI_READ n] else [])
     /\ exists t1, vendor_request_out b SPI_WRITE (Some p) (wire s) = (Ok tt, t1)
          /\ if 0 <? n
             then vendor_request_in b SPI_READ n t1 = (Ok r, wire s')
             else r = [] /\ wire s' = t1)
  /\ (forall e t1,
       len p <= buffer_size (self s) ->
       vendor_request_out b SPI_WRITE (Some p) (wire s) = (Raise e, t1) ->
       exists s', transmit data receive_length s = (Raise e, s')
         /\ issued s s' [CallOut SPI_WRITE (Some p)] /\ wire s' = t1)
  /\ (forall t1 e t2,
       len p <= buffer_size (self s) -> 0 < n ->
       vendor_request_out b SPI_WRITE (Some p) (wire s) = (Ok tt, t1) ->
       vendor_request_in b SPI_READ n t1 = (Raise e, t2) ->
       exists s', transmit data receive_length s = (Raise e, s')
         /\ issued s s' [CallOut SPI_WRITE (Some p); CallIn SPI_READ n]
         /\ wire s' = t2).
Proof.
  intros Hd n p b. split; [|split].
  - intros r s' Hrun.
    split; [apply len_padded|].
    assert (Hroom : can_pad s d n).
    { destruct (can_pad_or_not s d n) as [Hroom | [Hlong Hfull]]; [done|].
      rewrite (transmit_no_room s data d receive_length Hd Hlong Hfull) in Hrun.
      discriminate. }
    destruct (transmit_cases s data d receive_length _ s' Hd Hrun Hroom)
      as (_ & _ & [(_ & ? & _) | (_ & w & t1 & Hw & Hcase)]); [discriminate|].
    fold n p b in Hw, Hcase.
    destruct Hcase as [(e & _ & ? & _) | [(-> & Hn & Hr & Hc & Ht) | (-> & Hn & t2 & Hr & Hc & Ht)]].
    + discriminate.
    + replace (0 <? n) with false by (symmetry; apply Z.ltb_ge; lia).
      split; [exact Hc|]. exists t1. split; [done|]. split; [congruence|done].
    + replace (0 <? n) with true by (symmetry; apply Z.ltb_lt; lia).
      split; [exact Hc|]. exists t1. split; [done|]. by subst t2.
  - intros e t1 Hfit Hw.
    destruct (transmit data receive_length s) as [r s'] eqn:Hrun.
    assert (Hroom : can_pad s d n).
    { apply can_pad_buffer. subst p. rewrite len_padded in Hfit. lia. }
    destruct (transmit_cases s data d receive_length _ s' Hd Hrun Hroom)
      as (_ & _ & [(Hbig & _) | (_ & w & t1' & Hw' & Hcase)]).
    { fold n p in Hbig. lia. }
    fold n p b in Hw', Hcase. rewrite Hw in Hw'. inversion Hw'; subst w t1'.
    destruct Hcase as [(e' & He & -> & Hc & Ht) | [(? & _) | (? & _)]];
      [|discriminate..].
    inversion He; subst e'. exists s'. done.
  - intros t1 e t2 Hfit Hpos Hw Hr.
    destruct (transmit data receive_length s) as [r s'] eqn:Hrun.
    assert (Hroom : can_pad s d n).
    { apply can_pad_buffer. subst p. rewrite len_padded in Hfit. lia. }
    destruct (transmit_cases s data d receive_length _ s' Hd Hrun Hroom)
      as (_ & _ & [(Hbig & _) | (_ & w & t1' & Hw' & Hcase)]).
    { fold n p in Hbig. lia. }
    fold n p b in Hw', Hcase. rewrite Hw in Hw'. inversion Hw'; subst w t1'.
    destruct Hcase as [(e' & ? & _) | [(_ & ? & _) | (_ & _ & t2' & Hr' & Hc & Ht)]];
      [discriminate | lia |].
    rewrite Hr in Hr'. inversion Hr'; subst r t2'. exists s'. done.
Qed.

(** C5, as the code has it. In a transfer that passes the size check the
    write carries the larger of [len(data)] and the length to receive,
    and a read, issued only for a positive length, asks for the length
    to receive: the two are equal when the length to receive is at least
    [len(data)], and the write is the longer one when it is less. *)
Theorem transmit_write_and_read_lengths s data d receive_length r s' :
  heap s !! data = Some d ->
  transmit data receive_length s = (r, s') ->
  let n := requested receive_length d in
  Z.max (len d) n <= buffer_size (self s) ->
  exists p rest,
    issued s s' (CallOut SPI_WRITE (Some p) :: rest)
    /\ (rest = [] \/ (0 < n /\ rest = [CallIn SPI_READ n]))
    /\ (len d <= n -> len p = n)
    /\ (n < len d -> len p = len d).
Proof.
  intros Hd Hrun n Hfit.
  assert (Hroom : can_pad s d n) by (apply can_pad_buffer; lia).
  destruct (transmit_cases s data d receive_length r s' Hd Hrun Hroom)
    as (_ & _ & [(Hbig & _) | (_ & w & t1 & _ & Hcase)]).
  { rewrite len_padded in Hbig. fold n in Hbig. lia. }
  fold n in Hcase. exists (padded d n).
  assert (Hlen : (len d <= n -> len (padded d n) = n)
                 /\ (n < len d -> len (padded d n) = len d))
    by (rewrite len_padded; lia).
  destruct Hcase as [(e & _ & _ & Hc & _) | [(_ & _ & _ & Hc & _) | (_ & Hn & t2 & _ & Hc & _)]].
  - exists []. split; [exact Hc|]. split; [by left | exact Hlen].
  - exists []. split; [exact Hc|]. split; [by left | exact Hlen].
  - exists [CallIn SPI_READ n]. split; [exact Hc|]. split; [by right | exact Hlen].
Qed.

(** C8. [attach_device] never fails and appends the handle at the end of
    the registry; the buffer size, the board and everything outside the
    bus object stay as they were, and no call is made on the board. *)
Theorem attach_device_appends s (device : loc) :
  exists s',
    attach_device device s = (Ok tt, s')
    /\ devices (self s') = devices (self s) ++ [device]
    /\ buffer_size (self s') = buffer_size (self s)
    /\ board (self s') = board (self s)
    /\ heap s' = heap s /\ calls s' = calls s /\ wire s' = wire s.
Proof. eexists. split; [reflexivity|]. simpl. done. Qed.

(** C9, as the code has it. When the length to receive is larger than
    [len(data)] and the padded list can be built, the caller's list
    object is extended in place with zeros up to that length, whatever
    the outcome of the call. The size check looks at the extended list:
    a call refused with the capacity error has already changed the
    argument. When the padded list cannot be built the call raises from
    the padding, and the argument and everything else are as they
    were. *)
Theorem transmit_extends_argument s data d n r s' :
  heap s !! data = Some d ->
  len d < n ->
  transmit data (Some n) s = (r, s') ->
  (n <= list_limit s ->
     heap s' !! data = Some (d ++ replicate (Z.to_nat (n - len d)) 0)
     /\ (forall other, other <> data -> heap s' !! other = heap s !! other)
     /\ (buffer_size (self s) < n ->
           r = Raise (ValueError capacity_message) /\ heap s' !! data <> Some d))
  /\ (list_limit s < n -> r = Raise (padding_error s d n) /\ s' = s).
Proof.
  intros Hd Hlong Hrun. split.
  - intros Hfits.
    assert (Hroom : can_pad s d (requested (Some n) d)) by (by right).
    destruct (transmit_cases s data d (Some n) r s' Hd Hrun Hroom) as (_ & Hheap & Hcase).
    simpl in Hheap, Hcase. rewrite Hheap.
    split; [apply lookup_insert_eq|].
    split; [intros other Hne; by apply lookup_insert_ne|].
    intros Hbig. split.
    + destruct Hcase as [(_ & -> & _) | (Hfit & _)]; [done|].
      rewrite len_padded in Hfit. lia.
    + rewrite lookup_insert_eq. intros E. inversion E as [E'].
      apply (f_equal len) in E'. fold (padded d n) in E'.
      rewrite len_padded in E'. lia.
  - intros Hfull.
    rewrite (transmit_no_room s data d (Some n) Hd Hlong Hfull) in Hrun.
    by injection Hrun as <- <-.
Qed.

(** C10. The size check is strict. A transfer whose reconciled length is
    exactly [buffer_size] goes on to the write. The transfer is refused
    with the capacity error and no call on the board exactly when the
    reconciled length is strictly larger than [buffer_size] and the
    padded list can be built; and whenever the reconciled length is
    strictly larger no call is made on the board. *)
Theorem transmit_capacity_strict s data d receive_length r s' :
  heap s !! data = Some d ->
  transmit data receive_length s = (r, s') ->
  let n := requested receive_length d in
  (Z.max (len d) n = buffer_size (self s) ->
     exists rest, issued s s' (CallOut SPI_WRITE (Some (padded d n)) :: rest))
  /\ (r = Raise (ValueError capacity_message) /\ issued s s' []
      <-> buffer_size (self s) < Z.max (len d) n /\ can_pad s d n)
  /\ (buffer_size (self s) < Z.max (len d) n -> issued s s' []).
Proof.
  intros Hd Hrun n.
  destruct (can_pad_or_not s d n) as [Hroom | [Hlong Hfull]].
  2:{ rewrite (transmit_no_room s data d receive_length Hd Hlong Hfull) in Hrun.
      injection Hrun as <- <-. pose proof (buffer_le_limit s).
      split; [lia|]. split; [|intros _; by apply issued_nil].
      split.
      - intros [He _]. inversion He as [He'].
        by apply padding_error_not_capacity in He'.
      - intros [_ Hno]. unfold can_pad in Hno. lia. }
  destruct (transmit_cases s data d receive_length r s' Hd Hrun Hroom)
    as (_ & _ & Hcase).
  fold n in Hcase. rewrite len_padded in Hcase.
  destruct Hcase as [(Hbig & -> & Hc & _) | (Hfit & w & t1 & _ & Hcase)].
  - split; [lia|]. split; [|intros _; by apply issued_nil].
    split; [done|]. intros _. split; [done | by apply issued_nil].
  - assert (Hwrite : exists rest,
              issued s s' (CallOut SPI_WRITE (Some (padded d n)) :: rest)).
    { destruct Hcase as [(e & _ & _ & Hc & _) | [(_ & _ & _ & Hc & _) | (_ & _ & t2 & _ & Hc & _)]];
        eexists; exact Hc. }
    split; [done|]. split; [|lia]. split; [|lia].
    intros [_ Hnone]. destruct Hwrite as [rest Hw].
    pose proof (issued_inj _ _ _ _ Hnone Hw). discriminate.
Qed.

End Bus.

(** *** Runs on the boards above *)

Example init_issues_spi_init :
  exists s,
    init loopback_board "spi bus" 255 ∅ [] sys_maxsize = (Ok tt, s)
    /\ calls s = [CallOut SPI_INIT None]
    /\ devices (self s) = [] /\ buffer_size (self s) = 255.
Proof. eexists. split; [reflexivity|]. done. Qed.

Example transmit_loopback :
  exists s,
    transmit 1%positive (Some 5) (loopback_world 255 1%positive [1; 2; 3])
    = (Ok [1; 2; 3; 0; 0], s)
    /\ calls s = [CallOut SPI_WRITE (Some [1; 2; 3; 0; 0]); CallIn SPI_READ 5]
    /\ heap s !! 1%positive = Some [1; 2; 3; 0; 0].
Proof. eexists. split; [reflexivity|]. done. Qed.

Example transmit_shorter_read :
  exists s,
    transmit 1%positive (Some 2) (loopback_world 255 1%positive [1; 2; 3])
    = (Ok [1; 2], s)
    /\ calls s = [CallOut SPI_WRITE (Some [1; 2; 3]); CallIn SPI_READ 2]
    /\ heap s !! 1%positive = Some [1; 2; 3].
Proof. eexists. split; [reflexivity|]. done. Qed.

Example transmit_nothing_to_read :
  exists s,
    transmit 1%positive (Some 0) (loopback_world 255 1%positive [1; 2; 3]) = (Ok [], s)
    /\ calls s = [CallOut SPI_WRITE (Some [1; 2; 3])].
Proof. eexists. split; [reflexivity|]. done. Qed.

Example transmit_unplugged :
  exists s,
    transmit 1%positive None (unplugged_world 255 1%positive [1; 2; 3])
    = (Raise usb_error, s)
    /\ calls s = [CallOut SPI_WRITE (Some [1; 2; 3])].
Proof. eexists. split; [reflexivity|]. done. Qed.

Example attach_two_devices :
  devices (self (attach_device 8%positive
                   (attach_device 7%positive
                      (loopback_world 255 1%positive [])).2).2)
  = [7%positive; 8%positive].
Proof. reflexivity. Qed.

(** The looped-back board answers every request. *)
Lemma loopback_answers : answers loopback_board.
Proof.
  split.
  - intros request data t. by eexists.
  - intros request n t Hn. eexists _, _. split; [reflexivity|].
    unfold len, list_times. rewrite length_take, length_app, length_replicate. lia.
Qed.



(** C2 fails as stated: on a bus of size 3 a list of four items is
    refused although only two bytes are to be received. *)
Lemma transmit_returns_requested_length_counterexample :
  ~ (forall (s : state (list Z)) (data : loc) (d : list Z) (n : Z),
       heap s !! data = Some d ->
       answers (board (self s)) ->
       n <= buffer_size (self s) ->
       exists r s', transmit data (Some n) s = (Ok r, s')
                    /\ (0 < n -> len r = n) /\ (n = 0 -> r = [])).
Proof.
  intros H.
  destruct (H (loopback_world 3 1%positive [1; 2; 3; 4]) 1%positive [1; 2; 3; 4] 2)
    as (r & s' & Hrun & _); [reflexivity | apply loopback_answers | simpl; lia |].
  vm_compute in Hrun. discriminate.
Qed.

Lemma transmit_returns_requested_length_witness :
  exists r s',
    transmit 1%positive (Some 5) (loopback_world 255 1%positive [1; 2; 3]) = (Ok r, s')
    /\ (0 < 5 -> len r = 5)
    /\ (5 <= 0 -> r = []
        /\ issued (loopback_world 255 1%positive [1; 2; 3]) s'
             [CallOut SPI_WRITE (Some [1; 2; 3])]).
Proof.
  apply (transmit_returns_requested_length (loopback_world 255 1%positive [1; 2; 3])
           1%positive [1; 2; 3] (Some 5));
    [reflexivity | by vm_compute | by vm_compute | apply loopback_answers].
Defined.

Lemma transmit_pads_with_zeros_witness :
  (5 <= 255 ->
     exists rest,
       issued (loopback_world 255 1%positive [1; 2; 3])
         (transmit 1%positive (Some 5) (loopback_world 255 1%positive [1; 2; 3])).2
         (CallOut SPI_WRITE (Some [1; 2; 3; 0; 0]) :: rest)
       /\ forall c, c ∈ rest -> c = CallIn SPI_READ 5)
  /\ (255 < 5 ->
        issued (loopback_world 255 1%positive [1; 2; 3])
          (transmit 1%positive (Some 5) (loopback_world 255 1%positive [1; 2; 3])).2 []).
Proof.
  apply (transmit_pads_with_zeros (loopback_world 255 1%positive [1; 2; 3])
           1%positive [1; 2; 3] 5
           (transmit 1%positive (Some 5) (loopback_world 255 1%positive [1; 2; 3])).1);
    [reflexivity | by vm_compute | reflexivity].
Defined.

Lemma transmit_one_write_then_one_read_witness :
  issued (loopback_world 255 1%positive [1; 2; 3])
    (transmit 1%positive (Some 5) (loopback_world 255 1%positive [1; 2; 3])).2
    [CallOut SPI_WRITE (Some [1; 2; 3; 0; 0]); CallIn SPI_READ 5].
Proof.
  apply (proj1 (transmit_one_write_then_one_read
                  (loopback_world 255 1%positive [1; 2; 3])
                  1%positive [1; 2; 3] (Some 5) eq_refl)
           [1; 2; 3; 0; 0]
           (transmit 1%positive (Some 5) (loopback_world 255 1%positive [1; 2; 3])).2
           eq_refl).
Defined.

(** C5 fails as stated: five bytes are written and two are asked back. *)
Lemma transmit_write_and_read_lengths_counterexample :
  ~ (forall (s s' : state (list Z)) (data : loc) (d p : list Z) (n m : Z)
            (r : result (list Z)),
       heap s !! data = Some d ->
       transmit data (Some n) s = (r, s') ->
       issued s s' [CallOut SPI_WRITE (Some p); CallIn SPI_READ m] ->
       len p = m).
Proof.
  intros H.
  specialize (H (loopback_world 255 1%positive [1; 2; 3; 4; 5])
                (transmit 1%positive (Some 2)
                   (loopback_world 255 1%positive [1; 2; 3; 4; 5])).2
                1%positive [1; 2; 3; 4; 5] [1; 2; 3; 4; 5] 2 2
                (Ok [1; 2]) eq_refl eq_refl eq_refl).
  vm_compute in H. discriminate.
Qed.

Lemma transmit_write_and_read_lengths_witness :
  exists p rest,
    issued (loopback_world 255 1%positive [1; 2; 3])
      (transmit 1%positive None (loopback_world 255 1%positive [1; 2; 3])).2
      (CallOut SPI_WRITE (Some p) :: rest)
    /\ (rest = [] \/ (0 < 3 /\ rest = [CallIn SPI_READ 3]))
    /\ (3 <= 3 -> len p = 3)
    /\ (3 < 3 -> len p = 3).
Proof.
  apply (transmit_write_and_read_lengths (loopback_world 255 1%positive [1; 2; 3])
           1%positive [1; 2; 3] None
           (transmit 1%positive None (loopback_world 255 1%positive [1; 2; 3])).1);
    [reflexivity | reflexivity | by vm_compute].
Defined.

Lemma transmit_extends_argument_witness :
  (5 <= list_limit (loopback_world 3 1%positive [1; 2]) ->
     heap (transmit 1%positive (Some 5) (loopback_world 3 1%positive [1; 2])).2
       !! 1%positive = Some [1; 2; 0; 0; 0]
     /\ (forall other, other <> 1%positive ->
           heap (transmit 1%positive (Some 5) (loopback_world 3 1%positive [1; 2])).2
             !! other = heap (loopback_world 3 1%positive [1; 2]) !! other)
     /\ (3 < 5 ->
           (transmit 1%positive (Some 5) (loopback_world 3 1%positive [1; 2])).1
           = Raise (ValueError capacity_message)
           /\ heap (transmit 1%positive (Some 5) (loopback_world 3 1%positive [1; 2])).2
                !! 1%positive <> Some [1; 2]))
  /\ (list_limit (loopback_world 3 1%positive [1; 2]) < 5 ->
        (transmit 1%positive (Some 5) (loopback_world 3 1%positive [1; 2])).1
        = Raise (padding_error (loopback_world 3 1%positive [1; 2]) [1; 2] 5)
        /\ (transmit 1%positive (Some 5) (loopback_world 3 1%positive [1; 2])).2
           = loopback_world 3 1%positive [1; 2]).
Proof.
  apply (transmit_extends_argument (loopback_world 3 1%positive [1; 2])
           1%positive [1; 2] 5);
    [reflexivity | by vm_compute | reflexivity].
Defined.

(** C9 fails as stated: a call that asks for [2^64] bytes raises from
    the padding and leaves the three items of the argument as they
    were. *)
Lemma transmit_extends_argument_counterexample :
  ~ (forall (s s' : state (list Z)) (data : loc) (d : list Z) (n : Z)
            (r : result (list Z)),
       heap s !! data = Some d ->
       len d < n ->
       transmit data (Some n) s = (r, s') ->
       exists d', heap s' !! data = Some d' /\ len d' = n).
Proof.
  intros H.
  destruct (H (loopback_world 255 1%positive [1; 2; 3])
              (transmit 1%positive (Some 18446744073709551616)
                 (loopback_world 255 1%positive [1; 2; 3])).2
              1%positive [1; 2; 3] 18446744073709551616
              (transmit 1%positive (Some 18446744073709551616)
                 (loopback_world 255 1%positive [1; 2; 3])).1)
    as (d' & Hd' & Hlen); [reflexivity | by vm_compute | by vm_compute |].
  vm_compute in Hd'. injection Hd' as <-. vm_compute in Hlen. discriminate.
Qed.

Lemma transmit_capacity_strict_witness :
  (Z.max 3 3 = 3 ->
     exists rest,
       issued (loopback_world 3 1%positive [1; 2; 3])
         (transmit 1%positive None (loopback_world 3 1%positive [1; 2; 3])).2
         (CallOut SPI_WRITE (Some [1; 2; 3]) :: rest))
  /\ ((transmit 1%positive None (loopback_world 3 1%positive [1; 2; 3])).1
        = Raise (ValueError capacity_message)
      /\ issued (loopback_world 3 1%positive [1; 2; 3])
           (transmit 1%positive None (loopback_world 3 1%positive [1; 2; 3])).2 []
      <-> 3 < Z.max 3 3 /\ can_pad (loopback_world 3 1%positive [1; 2; 3]) [1; 2; 3] 3)
  /\ (3 < Z.max 3 3 ->
        issued (loopback_world 3 1%positive [1; 2; 3])
          (transmit 1%positive None (loopback_world 3 1%positive [1; 2; 3])).2 []).
Proof.
  apply (transmit_capacity_strict (loopback_world 3 1%positive [1; 2; 3])
           1%positive [1; 2; 3] None);
    [reflexivity | reflexivity].
Defined.

(** ** Further properties of the bus *)

Section MoreBus.
Context {T : Type}.
Implicit Types (s : state T) (d : list Z) (data : loc).

(** X1. [transmit] leaves the buffer size and the board of the bus as
    they are, and every list object of the store other than its
    argument; the argument itself is left as it is when the length to
    receive is not larger than [len(data)], and when the padding cannot
    be built. *)
Theorem transmit_frame s data d receive_length r s' :
  heap s !! data = Some d ->
  transmit data receive_length s = (r, s') ->
  buffer_size (self s') = buffer_size (self s)
  /\ board (self s') = board (self s)
  /\ (forall other, other <> data -> heap s' !! other = heap s !! other)
  /\ (requested receive_length d <= len d -> heap s' = heap s)
  /\ (list_limit s < requested receive_length d -> heap s' = heap s).
Proof.
  intros Hd Hrun.
  destruct (can_pad_or_not s d (requested receive_length d)) as [Hroom | [Hlong Hfull]].
  - destruct (transmit_cases s data d receive_length r s' Hd Hrun Hroom)
      as (Hself & Hheap & _).
    rewrite Hself. split; [done|]. split; [done|]. rewrite Hheap. split; [|split].
    + intros other Hne. by apply lookup_insert_ne.
    + intros Hshort. rewrite padded_short by done. by apply insert_id.
    + intros Hfull. rewrite padded_short; [by apply insert_id|].
      unfold can_pad in Hroom. lia.
  - rewrite (transmit_no_room s data d receive_length Hd Hlong Hfull) in Hrun.
    by injection Hrun as <- <-.
Qed.

(** X2. Leaving [receive_length] out is the same as asking for
    [len(data)] bytes. *)
Theorem transmit_default_receive_length s data d :
  heap s !! data = Some d ->
  transmit data None s = transmit data (Some (len d)) s.
Proof.
  intros Hd. by rewrite !(transmit_eq s data d _ Hd).
Qed.

(** X3. The padding stays. After a call that asked for more than
    [len(data)], with room for the padded list, a later call on the same
    list with [receive_length] left out asks for the padded length, and
    what it writes, if it passes the size check, is the padded list. *)
Theorem transmit_again_after_padding s data d n r s' :
  heap s !! data = Some d ->
  len d < n ->
  n <= list_limit s ->
  transmit data (Some n) s = (r, s') ->
  transmit data None s' = transmit data (Some n) s'
  /\ forall r2 s2,
       transmit data None s' = (r2, s2) ->
       n <= buffer_size (self s) ->
       exists rest,
         issued s' s2
           (CallOut SPI_WRITE (Some (d ++ replicate (Z.to_nat (n - len d)) 0)) :: rest)
         /\ (rest = [] \/ rest = [CallIn SPI_READ n]).
Proof.
  intros Hd Hlong Hfits Hrun.
  assert (Hroom : can_pad s d (requested (Some n) d)) by (by right).
  destruct (transmit_cases s data d (Some n) r s' Hd Hrun Hroom) as (Hself & Hheap & _).
  simpl in Hheap.
  assert (Hd' : heap s' !! data = Some (padded d n))
    by (rewrite Hheap; apply lookup_insert_eq).
  assert (Hlen : len (padded d n) = n) by (rewrite len_padded; lia).
  split.
  - rewrite !(transmit_eq s' data (padded d n) _ Hd').
    unfold transmit_outcome, requested. simpl. by rewrite Hlen.
  - intros r2 s2 Hrun2 Hfit.
    assert (Hroom' : can_pad s' (padded d n) (requested None (padded d n)))
      by (left; unfold requested; simpl; lia).
    destruct (transmit_cases s' data (padded d n) None r2 s2 Hd' Hrun2 Hroom')
      as (_ & _ & Hcase).
    unfold requested in Hcase. simpl in Hcase. rewrite Hlen in Hcase.
    rewrite (padded_short (padded d n) n) in Hcase by lia.
    rewrite Hlen, Hself in Hcase.
    destruct Hcase as [(Hbig & _) | (_ & w & t1 & _ & Hcase)]; [lia|].
    destruct Hcase as [(e & _ & _ & Hc & _) | [(_ & _ & _ & Hc & _) | (_ & _ & t2 & _ & Hc & _)]].
    + exists []. split; [exact Hc | by left].
    + exists []. split; [exact Hc | by left].
    + exists [CallIn SPI_READ n]. split; [exact Hc | by right].
Qed.

(** X4. Devices attached one after the other are all registered, in the
    order of the calls and after those already there; nothing is
    refused, a device attached twice is there twice, and no call is made
    on the board. *)
Theorem attach_all_appends (ds : list loc) s :
  exists s',
    attach_all ds s = (Ok tt, s')
    /\ devices (self s') = devices (self s) ++ ds
    /\ buffer_size (self s') = buffer_size (self s)
    /\ board (self s') = board (self s)
    /\ heap s' = heap s /\ calls s' = calls s /\ wire s' = wire s.
Proof.
  revert s. induction ds as [|device ds IH]; intros s.
  - exists s. simpl. rewrite app_nil_r. done.
  - destruct (IH (attach_device device s).2) as (s' & Hrun & Hdev & Hsize & Hboard & Hrest).
    exists s'. split.
    + simpl. erewrite bind_ok; [exact Hrun | reflexivity].
    + simpl in *. rewrite Hdev, <- app_assoc. done.
Qed.

(** X5. The constructor makes one call on the board, [SPI_INIT] without
    a payload, and its outcome is the outcome of that call. The bus it
    builds has the buffer size given and no device: after attaching
    [ds] to it the registry is [ds], and the call of the constructor is
    still the only one made. *)
Theorem init_then_attach (b : Board T) name size h t room r s0 (ds : list loc) :
  init b name size h t room = (r, s0) ->
  calls s0 = [CallOut SPI_INIT None]
  /\ vendor_request_out b SPI_INIT None t = (r, wire s0)
  /\ exists s1,
       attach_all ds s0 = (Ok tt, s1)
       /\ devices (self s1) = ds
       /\ buffer_size (self s1) = size /\ board (self s1) = b
       /\ calls s1 = [CallOut SPI_INIT None].
Proof.
  intros Hinit. unfold init, board_request_out in Hinit. simpl in Hinit.
  destruct (vendor_request_out b SPI_INIT None t) as [r0 t0].
  inversion Hinit; subst r0 s0. clear Hinit. simpl.
  split; [done|]. split; [done|].
  revert ds.
  assert (Hgen : forall ds (s : state T),
            exists s1, attach_all ds s = (Ok tt, s1)
              /\ devices (self s1) = devices (self s) ++ ds
              /\ buffer_size (self s1) = buffer_size (self s)
              /\ board (self s1) = board (self s) /\ calls s1 = calls s).
  { induction ds as [|device ds IH]; intros s.
    - exists s. simpl. rewrite app_nil_r. done.
    - destruct (IH (attach_device device s).2) as (s1 & Hrun & Hdev & Hsize & Hboard & Hcalls).
      exists s1. split.
      + simpl. erewrite bind_ok; [exact Hrun | reflexivity].
      + simpl in *. rewrite Hdev, <- app_assoc. done. }
  intros ds.
  destruct (Hgen ds (with_call (CallOut SPI_INIT None) t0
              {| self := {| board := b; buffer_size := size; devices := [] |};
                 heap := h; calls := []; wire := t; memory := room |}))
    as (s1 & Hrun & Hdev & Hsize & Hboard & Hcalls).
  exists s1. simpl in *. done.
Qed.

(** X6. The errors [transmit] raises of its own are the error of a
    padding that cannot be built and the capacity error, both before
    any call on the board. Any other error is one the board raised, in
    the write or, after a write that was taken, in the read. *)
Theorem transmit_errors s data d receive_length e s' :
  heap s !! data = Some d ->
  transmit data receive_length s = (Raise e, s') ->
  let n := requested receive_length d in
  let p := padded d n in
  let b := board (self s) in
  (e = padding_error s d n /\ len d < n /\ list_limit s < n /\ s' = s)
  \/ (e = ValueError capacity_message
      /\ buffer_size (self s) < Z.max (len d) n /\ issued s s' [])
  \/ (exists t1, vendor_request_out b SPI_WRITE (Some p) (wire s) = (Raise e, t1)
        /\ issued s s' [CallOut SPI_WRITE (Some p)])
  \/ (exists t1 t2,
        vendor_request_out b SPI_WRITE (Some p) (wire s) = (Ok tt, t1)
        /\ vendor_request_in b SPI_READ n t1 = (Raise e, t2)
        /\ issued s s' [CallOut SPI_WRITE (Some p); CallIn SPI_READ n]).
Proof.
  intros Hd Hrun n p b.
  destruct (can_pad_or_not s d n) as [Hroom | [Hlong Hfull]].
  2:{ left. rewrite (transmit_no_room s data d receive_length Hd Hlong Hfull) in Hrun.
      by injection Hrun as <- <-. }
  right.
  destruct (transmit_cases s data d receive_length _ s' Hd Hrun Hroom)
    as (_ & _ & [(Hbig & He & Hc & _) | (_ & w & t1 & Hw & Hcase)]).
  - left. inversion He; subst e. rewrite len_padded in Hbig.
    split; [done|]. split; [done | by apply issued_nil].
  - right. fold n p b in Hw, Hcase.
    destruct Hcase as [(e' & -> & He & Hc & _) | [(_ & _ & ? & _) | (-> & _ & t2 & Hr & Hc & _)]].
    + left. inversion He; subst e'. by exists t1.
    + discriminate.
    + right. by exists t1, t2.
Qed.

End MoreBus.

Lemma transmit_frame_witness :
  buffer_size (self (transmit 1%positive (Some 2)
                       (loopback_world 255 1%positive [1; 2; 3])).2)
  = buffer_size (self (loopback_world 255 1%positive [1; 2; 3]))
  /\ board (self (transmit 1%positive (Some 2)
                    (loopback_world 255 1%positive [1; 2; 3])).2)
     = board (self (loopback_world 255 1%positive [1; 2; 3]))
  /\ (forall other, other <> 1%positive ->
        heap (transmit 1%positive (Some 2) (loopback_world 255 1%positive [1; 2; 3])).2
          !! other = heap (loopback_world 255 1%positive [1; 2; 3]) !! other)
  /\ (2 <= 3 ->
        heap (transmit 1%positive (Some 2) (loopback_world 255 1%positive [1; 2; 3])).2
        = heap (loopback_world 255 1%positive [1; 2; 3]))
  /\ (list_limit (loopback_world 255 1%positive [1; 2; 3]) < 2 ->
        heap (transmit 1%positive (Some 2) (loopback_world 255 1%positive [1; 2; 3])).2
        = heap (loopback_world 255 1%positive [1; 2; 3])).
Proof.
  apply (transmit_frame (loopback_world 255 1%positive [1; 2; 3]) 1%positive [1; 2; 3]
           (Some 2)
           (transmit 1%positive (Some 2) (loopback_world 255 1%positive [1; 2; 3])).1);
    [reflexivity | reflexivity].
Defined.

Lemma transmit_default_receive_length_witness :
  transmit 1%positive None (loopback_world 255 1%positive [1; 2; 3])
  = transmit 1%positive (Some 3) (loopback_world 255 1%positive [1; 2; 3]).
Proof.
  apply (transmit_default_receive_length (loopback_world 255 1%positive [1; 2; 3])
           1%positive [1; 2; 3]); reflexivity.
Defined.

Lemma transmit_again_after_padding_witness :
  transmit 1%positive None
    (transmit 1%positive (Some 5) (loopback_world 255 1%positive [1; 2; 3])).2
  = transmit 1%positive (Some 5)
      (transmit 1%positive (Some 5) (loopback_world 255 1%positive [1; 2; 3])).2
  /\ forall r2 s2,
       transmit 1%positive None
         (transmit 1%positive (Some 5) (loopback_world 255 1%positive [1; 2; 3])).2
       = (r2, s2) ->
       5 <= 255 ->
       exists rest,
         issued (transmit 1%positive (Some 5) (loopback_world 255 1%positive [1; 2; 3])).2
           s2 (CallOut SPI_WRITE (Some [1; 2; 3; 0; 0]) :: rest)
         /\ (rest = [] \/ rest = [CallIn SPI_READ 5]).
Proof.
  apply (transmit_again_after_padding (loopback_world 255 1%positive [1; 2; 3])
           1%positive [1; 2; 3] 5
           (transmit 1%positive (Some 5) (loopback_world 255 1%positive [1; 2; 3])).1);
    [reflexivity | by vm_compute | by vm_compute | reflexivity].
Defined.

Lemma init_then_attach_witness :
  calls (init loopback_board "spi bus" 255 ∅ [] sys_maxsize).2 = [CallOut SPI_INIT None]
  /\ vendor_request_out loopback_board SPI_INIT None []
     = ((init loopback_board "spi bus" 255 ∅ [] sys_maxsize).1,
        wire (init loopback_board "spi bus" 255 ∅ [] sys_maxsize).2)
  /\ exists s1,
       attach_all [7%positive; 8%positive]
         (init loopback_board "spi bus" 255 ∅ [] sys_maxsize).2
       = (Ok tt, s1)
       /\ devices (self s1) = [7%positive; 8%positive]
       /\ buffer_size (self s1) = 255 /\ board (self s1) = loopback_board
       /\ calls s1 = [CallOut SPI_INIT None].
Proof.
  apply (init_then_attach loopback_board "spi bus" 255 ∅ [] sys_maxsize
           (init loopback_board "spi bus" 255 ∅ [] sys_maxsize).1
           (init loopback_board "spi bus" 255 ∅ [] sys_maxsize).2
           [7%positive; 8%positive]).
  reflexivity.
Defined.

Lemma transmit_errors_witness :
  (usb_error = padding_error (unplugged_world 255 1%positive [1; 2; 3]) [1; 2; 3] 3
   /\ 3 < 3 /\ list_limit (unplugged_world 255 1%positive [1; 2; 3]) < 3
   /\ (transmit 1%positive None (unplugged_world 255 1%positive [1; 2; 3])).2
      = unplugged_world 255 1%positive [1; 2; 3])
  \/ (usb_error = ValueError capacity_message
      /\ 255 < Z.max 3 3
      /\ issued (unplugged_world 255 1%positive [1; 2; 3])
           (transmit 1%positive None (unplugged_world 255 1%positive [1; 2; 3])).2 [])
  \/ (exists t1, vendor_request_out unplugged_board SPI_WRITE (Some [1; 2; 3]) tt
                 = (Raise usb_error, t1)
        /\ issued (unplugged_world 255 1%positive [1; 2; 3])
             (transmit 1%positive None (unplugged_world 255 1%positive [1; 2; 3])).2
             [CallOut SPI_WRITE (Some [1; 2; 3])])
  \/ (exists t1 t2,
        vendor_request_out unplugged_board SPI_WRITE (Some [1; 2; 3]) tt = (Ok tt, t1)
        /\ vendor_request_in unplugged_board SPI_READ 3 t1 = (Raise usb_error, t2)
        /\ issued (unplugged_world 255 1%positive [1; 2; 3])
             (transmit 1%positive None (unplugged_world 255 1%positive [1; 2; 3])).2
             [CallOut SPI_WRITE (Some [1; 2; 3]); CallIn SPI_READ 3]).
Proof.
  apply (transmit_errors (unplugged_world 255 1%positive [1; 2; 3]) 1%positive [1; 2; 3]
           None usb_error
           (transmit 1%positive None (unplugged_world 255 1%positive [1; 2; 3])).2);
    [reflexivity | reflexivity].
Defined.

(** *** Paddings that cannot be built *)

Example transmit_overflow :
  transmit 1%positive (Some 18446744073709551616)
    (loopback_world 255 1%positive [1; 2; 3])
  = (Raise (OverflowError "cannot fit 'int' into an index-sized integer"),
     loopback_world 255 1%positive [1; 2; 3]).
Proof. vm_compute. reflexivity. Qed.

Example transmit_out_of_memory :
  transmit 1%positive (Some 5000) (small_world 255 1%positive [1; 2; 3])
  = (Raise MemoryError, small_world 255 1%positive [1; 2; 3]).
Proof. vm_compute. reflexivity. Qed.

Example transmit_too_long_for_the_buffer :
  (transmit 1%positive (Some 500) (small_world 255 1%positive [1; 2; 3])).1
  = Raise (ValueError capacity_message).
Proof. vm_compute. reflexivity. Qed.

End SPIFacts.

(** * Properties of the flash utility *)

Module FirmwareFacts.
Import Firmware.

Section Flash.
Context {F : Type}.
Implicit Types (s : world F) (fl : OnboardFlash F) (device : Device F)
  (callback : @progress_callback F).

Lemma log_bystander (log_function : logger) (text : Z -> Z -> string) e :
  bystander (F := F)
    (fun bytes_done bytes_total => log log_function (text bytes_done bytes_total) e).
Proof. intros d t s. done. Qed.

Lemma emitted_refl s : emitted s s [].
Proof. unfold emitted. by rewrite app_nil_r. Qed.

Lemma emitted_trans s1 s2 s3 evs evs' :
  emitted s1 s2 evs -> emitted s2 s3 evs' -> emitted s1 s3 (evs ++ evs').
Proof. unfold emitted. intros E1 E2. by rewrite E2, E1, app_assoc. Qed.

Lemma emitted_inj s s' evs evs' : emitted s s' evs -> emitted s s' evs' -> evs = evs'.
Proof. unfold emitted. intros E E'. rewrite E in E'. by apply app_inv_head in E'. Qed.

Lemma emit_progress_emitted callback bytes_done bytes_total s r s' :
  bystander callback ->
  emit_progress callback bytes_done bytes_total s = (r, s') ->
  emitted s s' [Progress bytes_done bytes_total] /\ flash s' = flash s.
Proof.
  intros Hcb Hrun. unfold emit_progress in Hrun.
  rewrite (bind_ok _ _ s tt (with_event (Progress bytes_done bytes_total) (flash s) s))
    in Hrun by done.
  destruct (Hcb bytes_done bytes_total
              (with_event (Progress bytes_done bytes_total) (flash s) s)) as [Ht Hf].
  rewrite Hrun in Ht, Hf. simpl in Ht, Hf. done.
Qed.

(** The write loop only adds events, and all it adds are chunks written
    and progress reported. *)
Lemma write_chunks_emitted fuel fl callback length offset rest s r s' :
  bystander callback ->
  write_chunks fuel fl callback length offset rest s = (r, s') ->
  exists evs, emitted s s' evs
    /\ Forall (fun e => is_transport_call e = true -> is_write_chunk e = true) evs.
Proof.
  intros Hcb. revert offset rest s.
  induction fuel as [|fuel IH]; intros offset rest s Hrun; simpl in Hrun.
  - exists []. split; [|done].
    destruct (len rest >? 0); inversion Hrun; subst; apply emitted_refl.
  - destruct (len rest >? 0); [|inversion Hrun; subst; exists []; split; [apply emitted_refl|done]].
    apply bind_inv in Hrun as [(u & s1 & Hw & Hrun) | (e & Hw & ->)].
    + unfold transport_write in Hw.
      destruct (flash_write _ _ _ _) as [rw t1]. inversion Hw; subst rw s1. clear Hw.
      apply bind_inv in Hrun as [(u' & s2 & Hp & Hrun) | (e & Hp & ->)].
      * apply emit_progress_emitted in Hp as [Hp _]; [|done].
        apply IH in Hrun as (evs & Hevs & Hall).
        eexists. split.
        { eapply emitted_trans; [|exact Hevs].
          eapply (emitted_trans s _ _ [_] [_]); [|exact Hp]. done. }
        repeat constructor; done.
      * apply emit_progress_emitted in Hp as [Hp _]; [|done].
        eexists. split.
        { eapply (emitted_trans s _ _ [_] [_]); [|exact Hp]. done. }
        repeat constructor; done.
    + unfold transport_write in Hw.
      destruct (flash_write _ _ _ _) as [rw t1]. inversion Hw; subst.
      exists [WriteChunk offset (take (Z.to_nat (Z.min (len rest) (Z.pos (max_chunk fl)))) rest)].
      split; [done|]. repeat constructor; done.
Qed.

(** The fuel the write is given, one unit for each byte, is enough: with
    that much or more the loop ends because nothing is left to write. *)
Lemma write_chunks_fuel fl callback length fuel fuel' offset rest s :
  (List.length rest <= fuel)%nat ->
  (List.length rest <= fuel')%nat ->
  write_chunks fuel fl callback length offset rest s
  = write_chunks fuel' fl callback length offset rest s.
Proof.
  revert fuel' offset rest s.
  induction fuel as [|fuel IH]; intros [|fuel'] offset rest s Hf Hf'; simpl.
  - done.
  - destruct rest; [done | simpl in Hf; lia].
  - destruct rest; [done | simpl in Hf'; lia].
  - destruct (Z.gtb_spec (len rest) 0) as [Hpos|]; [|done].
    unfold mbind, M_bind, bind.
    destruct (transport_write _ _ _ _) as [[u|e] s1]; [|done].
    destruct (emit_progress _ _ _ _) as [[u'|e] s2]; [|done].
    apply IH; rewrite length_drop; unfold len in *; lia.
Qed.

(** The same for the read, with one unit for each byte asked for. *)
Lemma read_chunks_fuel fl callback length fuel fuel' offset remaining buffer s :
  (Z.to_nat remaining <= fuel)%nat ->
  (Z.to_nat remaining <= fuel')%nat ->
  read_chunks fuel fl callback length offset remaining buffer s
  = read_chunks fuel' fl callback length offset remaining buffer s.
Proof.
  revert fuel' offset remaining buffer s.
  induction fuel as [|fuel IH]; intros [|fuel'] offset remaining buffer s Hf Hf'; simpl.
  - done.
  - destruct (Z.gtb_spec remaining 0); [lia | done].
  - destruct (Z.gtb_spec remaining 0); [lia | done].
  - destruct (Z.gtb_spec remaining 0) as [Hpos|]; [|done].
    unfold mbind, M_bind, bind.
    destruct (transport_read _ _ _ _) as [[chunk|e] s1]; [|done].
    destruct (emit_progress _ _ _ _) as [[u'|e] s2]; [|done].
    apply IH; lia.
Qed.

(** The runs of a write with [erase_first] set. *)
Lemma onboard_flash_write_cases fl data address callback s r s' :
  bystander callback ->
  onboard_flash_write fl data address true callback s = (r, s') ->
  (max_flash_length fl < address + len data /\ r = Raise OutOfRange /\ s' = s)
  \/ (address + len data <= max_flash_length fl /\ len data = 0
      /\ emitted s s' [Progress 0 0] /\ flash s' = flash s)
  \/ (address + len data <= max_flash_length fl /\ len data <> 0 /\
      exists w t, flash_erase (transport fl) address (len data) (flash s) = (w, t) /\
        ( (exists e, w = Raise e /\ r = Raise e
             /\ emitted s s' [Erase address (len data)] /\ flash s' = t)
        \/ (w = Ok tt /\ exists evs,
              emitted s s' (Erase address (len data) :: evs)
              /\ Forall (fun e => is_transport_call e = true -> is_write_chunk e = true) evs) )).
Proof.
  intros Hcb Hrun. unfold onboard_flash_write in Hrun.
  destruct (Z.gtb_spec (address + len data) (max_flash_length fl)) as [Hout|Hin].
  { left. inversion Hrun; subst. done. }
  right. destruct (Z.eqb_spec (len data) 0) as [Hzero|Hsome].
  { left. apply emit_progress_emitted in Hrun as [Hp Hf]; done. }
  right. split; [done|]. split; [done|].
  destruct (flash_erase (transport fl) address (len data) (flash s)) as [w t] eqn:Hw.
  exists w, t. split; [done|].
  apply bind_inv in Hrun as [(u & s1 & He & Hrun) | (e & He & ->)];
    unfold transport_erase in He; rewrite Hw in He; inversion He; subst.
  - right. destruct u. split; [done|].
    apply write_chunks_emitted in Hrun as (evs & Hevs & Hall); [|done].
    exists evs. split; [|done].
    apply (emitted_trans s (with_event (Erase address (len data)) t s) s'
             [Erase address (len data)] evs); done.
  - left. exists e. done.
Qed.

Lemma device_onboard_flash_write_eq device fl data address erase_first callback s :
  onboard_flash device = Some fl ->
  device_onboard_flash_write device data address erase_first callback s
  = onboard_flash_write fl data address erase_first callback
      (with_event (FlashWrite data address erase_first) (flash s) s).
Proof.
  intros Hfl. unfold device_onboard_flash_write, get_onboard_flash. rewrite Hfl.
  reflexivity.
Qed.

Lemma device_onboard_flash_read_eq device fl address length callback s :
  onboard_flash device = Some fl ->
  device_onboard_flash_read device address length callback s
  = onboard_flash_read fl address length callback
      (with_event (FlashRead address length) (flash s) s).
Proof.
  intros Hfl. unfold device_onboard_flash_read, get_onboard_flash. rewrite Hfl.
  reflexivity.
Qed.

Lemma read_file_ok filename data s :
  unreadable s filename = false ->
  files s !! filename = Some data ->
  read_file filename s = (Ok data, s).
Proof. intros Hperm Hfile. unfold read_file. by rewrite Hperm, Hfile. Qed.

Lemma open_wb_ok filename s :
  unwritable s filename = false ->
  open_wb filename s = (Ok tt, with_files (<[filename := []]> (files s)) s).
Proof. intros Hperm. unfold open_wb. by rewrite Hperm. Qed.

Lemma open_wb_denied filename s :
  unwritable s filename = true ->
  open_wb filename s = (Raise (IOError filename), s).
Proof. intros Hperm. unfold open_wb. by rewrite Hperm. Qed.

(** C6. A read or a write of a region that ends beyond the configured
    maximum flash length raises [OutOfRange] and leaves the world as it
    found it: no request goes over the transport and no progress is
    reported. Through [spi_flash_read] and [spi_flash_write], once the
    file is open, the only event is the call of the method itself; when
    the file of a read cannot be opened the flash is not asked at
    all. *)
Theorem flash_request_out_of_range fl address length :
  max_flash_length fl < address + length ->
  (forall callback s,
     onboard_flash_read fl address length callback s = (Raise OutOfRange, s))
  /\ (forall data erase_first callback s,
        len data = length ->
        onboard_flash_write fl data address erase_first callback s
        = (Raise OutOfRange, s))
  /\ (forall device filename log_function s,
        onboard_flash device = Some fl ->
        (unwritable s filename = false ->
           exists s',
             spi_flash_read device filename address length log_function s
             = (Raise OutOfRange, s')
             /\ emitted s s' [FlashRead address length] /\ flash s' = flash s)
        /\ (unwritable s filename = true ->
              spi_flash_read device filename address length log_function s
              = (Raise (IOError filename), s)))
  /\ (forall device filename log_function s data,
        onboard_flash device = Some fl ->
        unreadable s filename = false ->
        files s !! filename = Some data ->
        len data = length ->
        exists s',
          spi_flash_write device filename address log_function s
          = (Raise OutOfRange, s')
          /\ emitted s s' [FlashWrite data address true] /\ flash s' = flash s).
Proof.
  intros Hout.
  assert (Hread : forall callback s,
            onboard_flash_read fl address length callback s = (Raise OutOfRange, s)).
  { intros callback s. unfold onboard_flash_read.
    destruct (Z.gtb_spec (address + length) (max_flash_length fl)); [done | lia]. }
  assert (Hwrite : forall data erase_first callback s,
            len data = length ->
            onboard_flash_write fl data address erase_first callback s
            = (Raise OutOfRange, s)).
  { intros data erase_first callback s Hlen. unfold onboard_flash_write. rewrite Hlen.
    destruct (Z.gtb_spec (address + length) (max_flash_length fl)); [done | lia]. }
  split; [exact Hread|]. split; [exact Hwrite|]. split.
  - intros device filename log_function s Hfl. split.
    + intros Hperm. eexists. unfold spi_flash_read.
      rewrite (bind_ok _ _ s tt (with_files (<[filename := []]> (files s)) s))
        by (by apply open_wb_ok).
      split.
      * erewrite bind_raise; [reflexivity|].
        rewrite (device_onboard_flash_read_eq _ fl) by done.
        apply Hread.
      * done.
    + intros Hperm. unfold spi_flash_read.
      apply bind_raise. by apply open_wb_denied.
  - intros device filename log_function s data Hfl Hperm Hfile Hlen.
    eexists. unfold spi_flash_write.
    rewrite (bind_ok _ _ s data s) by (by apply read_file_ok).
    split.
    + erewrite bind_raise; [reflexivity|].
      rewrite (device_onboard_flash_write_eq _ fl) by done.
      by apply Hwrite.
    + done.
Qed.

(** C7. [spi_flash_write] asks for the write with [erase_first] set.
    For data that is not empty and fits the flash, the first thing sent
    is the erase of the whole region, [len(data)] bytes at the address;
    what follows it is chunks written and progress reported and no
    other request, and when the erase fails nothing follows it and its
    error is what the caller gets. A write that is refused for its
    range, or has no data, sends nothing. So a chunk is written only
    after the erase has succeeded, and never when the erase fails. *)
Theorem spi_flash_write_erases_first device fl filename address log_function data s r s' :
  onboard_flash device = Some fl ->
  unreadable s filename = false ->
  files s !! filename = Some data ->
  spi_flash_write device filename address log_function s = (r, s') ->
  exists evs,
    emitted s s' (FlashWrite data address true :: evs)
    /\ (address + len data <= max_flash_length fl -> len data <> 0 ->
          exists rest,
            evs = Erase address (len data) :: rest
            /\ Forall (fun e => is_transport_call e = true -> is_write_chunk e = true) rest
            /\ (forall e t,
                  flash_erase (transport fl) address (len data) (flash s) = (Raise e, t) ->
                  rest = [] /\ r = Raise e /\ flash s' = t))
    /\ (max_flash_length fl < address + len data \/ len data = 0 ->
          forall c, c ∈ evs -> is_transport_call c = false)
    /\ (forall c, c ∈ evs -> is_write_chunk c = true ->
          exists t rest,
            flash_erase (transport fl) address (len data) (flash s) = (Ok tt, t)
            /\ evs = Erase address (len data) :: rest
            /\ Forall (fun e => is_transport_call e = true -> is_write_chunk e = true) rest)
    /\ (forall e t,
          flash_erase (transport fl) address (len data) (flash s) = (Raise e, t) ->
          (forall c, c ∈ evs -> is_write_chunk c = false)
          /\ (Erase address (len data) ∈ evs ->
                r = Raise e /\ evs = [Erase address (len data)] /\ flash s' = t)).
Proof.
  intros Hfl Hperm Hfile Hrun. unfold spi_flash_write in Hrun.
  rewrite (bind_ok _ _ s data s) in Hrun by (by apply read_file_ok).
  set (print_progress := fun bytes_written bytes_total : Z =>
         log log_function
           ("Written " +:+ str bytes_written +:+ " bytes of " +:+ str bytes_total +:+ ".")
           (Some CR)) in Hrun.
  assert (Hcb : bystander print_progress) by (intros d t s0; done).
  set (s0 := with_event (FlashWrite data address true) (flash s) s).
  assert (Hs0 : emitted s s0 [FlashWrite data address true]) by done.
  assert (Hmid : exists r1 s1,
            onboard_flash_write fl data address true print_progress s0 = (r1, s1)
            /\ trace s' = trace s1 /\ flash s' = flash s1
            /\ (forall e, r1 = Raise e -> r = Raise e)).
  { apply bind_inv in Hrun as [(u & s1 & Hw & Hlog) | (e & Hw & ->)];
      rewrite (device_onboard_flash_write_eq _ fl) in Hw by done; fold s0 in Hw.
    - exists (Ok u), s1. split; [done|]. inversion Hlog; subst. done.
    - exists (Raise e), s'. split; [done|]. split; [done|]. split; [done|].
      by intros e' [= ->]. }
  destruct Hmid as (r1 & s1 & Hw & Htrace & Hflash & Hraise).
  assert (Hshift : forall evs, emitted s0 s1 evs ->
                     emitted s s' (FlashWrite data address true :: evs)).
  { intros evs Hevs. unfold emitted. rewrite Htrace.
    apply (emitted_trans s s0 s1 [_] evs); done. }
  destruct (onboard_flash_write_cases fl data address print_progress s0 r1 s1 Hcb Hw)
    as [(Hout & _ & ->) | [(Hin & Hzero & Hp & _) | (Hin & Hsome & w & t & He & Hcase)]].
  - exists []. split; [apply Hshift, emitted_refl|].
    split; [intros; lia|].
    split; [intros _ c Hc; by apply elem_of_nil in Hc|].
    split; [intros c Hc; by apply elem_of_nil in Hc|].
    intros e t _. split; [intros c Hc; by apply elem_of_nil in Hc|].
    intros Hc. by apply elem_of_nil in Hc.
  - exists [Progress 0 0]. split; [by apply Hshift|].
    split; [intros; lia|].
    split; [intros _ c Hc; by apply list_elem_of_singleton in Hc as ->|].
    split.
    { intros c Hc. apply list_elem_of_singleton in Hc as ->. done. }
    intros e t _. split.
    { intros c Hc. by apply list_elem_of_singleton in Hc as ->. }
    intros Hc. by apply list_elem_of_singleton in Hc.
  - simpl in He.
    destruct Hcase as [(e & -> & -> & Hevs & Ht) | (-> & evs & Hevs & Hall)].
    + exists [Erase address (len data)]. split; [by apply Hshift|].
      split.
      { intros _ _. exists []. split; [done|]. split; [done|].
        intros e' t' He'. rewrite He in He'. inversion He'; subst e' t'.
        split; [done|]. split; [by apply Hraise | congruence]. }
      split; [intros [?|?]; lia|].
      split.
      { intros c Hc. apply list_elem_of_singleton in Hc as ->. done. }
      intros e' t' He'. rewrite He in He'. inversion He'; subst e' t'.
      split.
      { intros c Hc. by apply list_elem_of_singleton in Hc as ->. }
      intros _. split; [by apply Hraise|]. split; [done|]. congruence.
    + exists (Erase address (len data) :: evs). split; [by apply Hshift|].
      split.
      { intros _ _. exists evs. split; [done|]. split; [done|].
        intros e' t' He'. rewrite He in He'. discriminate. }
      split; [intros [?|?]; lia|].
      split.
      { intros c _ _. by exists t, evs. }
      intros e' t' He'. rewrite He in He'. discriminate.
Qed.

End Flash.

(** *** Runs on the flash in memory *)

Example write_in_chunks :
  exists s,
    spi_flash_write (board_with ram_flash 2) "firmware.bin" 16 log_silent
      (world_with [1; 2; 3]) = (Ok tt, s)
    /\ trace s = [FlashWrite [1; 2; 3] 16 true; Erase 16 3;
                  WriteChunk 16 [1; 2]; Progress 2 3;
                  WriteChunk 18 [3]; Progress 3 3].
Proof. eexists. split; [vm_compute; reflexivity|]. done. Qed.

Example write_reports_progress :
  stdout (spi_flash_write (board_with ram_flash 8) "firmware.bin" 16 log_verbose
            (world_with [1; 2; 3])).2
  = "Written 3 bytes of 3." +:+ CR +:+ LF.
Proof. vm_compute. reflexivity. Qed.

Example write_nothing :
  exists s,
    spi_flash_write (board_with ram_flash 2) "firmware.bin" 16 log_silent
      (world_with []) = (Ok tt, s)
    /\ trace s = [FlashWrite [] 16 true; Progress 0 0].
Proof. eexists. split; [vm_compute; reflexivity|]. done. Qed.

Example write_with_failing_erase :
  exists s,
    spi_flash_write (board_with stuck_flash 2) "firmware.bin" 16 log_silent
      (world_with [1; 2; 3]) = (Raise flash_error, s)
    /\ trace s = [FlashWrite [1; 2; 3] 16 true; Erase 16 3].
Proof. eexists. split; [vm_compute; reflexivity|]. done. Qed.

Example write_of_a_missing_file :
  spi_flash_write (board_with ram_flash 2) "other.bin" 16 log_silent (world_with [1])
  = (Raise (IOError "other.bin"), world_with [1]).
Proof. vm_compute. reflexivity. Qed.

Example read_in_chunks :
  exists s,
    spi_flash_read (board_with ram_flash 2) "dump.bin" 16 3 log_silent
      (world_with [1]) = (Ok tt, s)
    /\ trace s = [FlashRead 16 3; ReadChunk 16 2; Progress 2 3;
                  ReadChunk 18 1; Progress 3 3]
    /\ files s !! "dump.bin" = Some [255; 255; 255].
Proof. eexists. split; [vm_compute; reflexivity|]. split; [done|]. vm_compute. reflexivity. Qed.

Example read_out_of_range_empties_the_file :
  exists s,
    spi_flash_read (board_with ram_flash 2) "firmware.bin" 16 MAX_FLASH_LENGTH log_silent
      (world_with [1]) = (Raise OutOfRange, s)
    /\ trace s = [FlashRead 16 MAX_FLASH_LENGTH]
    /\ files s !! "firmware.bin" = Some [].
Proof. eexists. split; [vm_compute; reflexivity|]. split; [done|]. vm_compute. reflexivity. Qed.

Example main_without_options :
  exists s,
    main log_silent log_verbose no_board "usage: greatfet_firmware" default_args
      (world_with []) = (Raise (SystemExit 0), s)
    /\ stdout s = "usage: greatfet_firmware" /\ trace s = [].
Proof. eexists. split; [vm_compute; reflexivity|]. done. Qed.

Example main_without_board :
  exists s,
    main log_silent log_verbose no_board ""
      {| address := 0; length := MAX_FLASH_LENGTH; read := "dump.bin"; write := "";
         serial := None; quiet := true; reset := false |}
      (world_with []) = (Raise (SystemExit ENODEV), s)
    /\ stderr s = "No GreatFET board found!" +:+ LF /\ trace s = [].
Proof. eexists. split; [vm_compute; reflexivity|]. done. Qed.

Example main_writes_then_resets :
  trace (main log_silent log_verbose (fun _ => Some (board_with ram_flash 8)) ""
           {| address := 0; length := MAX_FLASH_LENGTH; read := ""; write := "firmware.bin";
              serial := None; quiet := true; reset := true |}
           (world_with [1; 2; 3])).2
  = [FlashWrite [1; 2; 3] 0 true; Erase 0 3; WriteChunk 0 [1; 2; 3]; Progress 3 3; Reset].
Proof. vm_compute. reflexivity. Qed.

Example read_into_an_unopenable_file :
  spi_flash_read (board_with ram_flash 2) "nodir/dump.bin" 16 3 log_silent (locked_world [1])
  = (Raise (IOError "nodir/dump.bin"), locked_world [1]).
Proof. vm_compute. reflexivity. Qed.

Lemma flash_request_out_of_range_witness :
  (forall callback s,
     onboard_flash_read (flash_over ram_flash 2) 1048576 1 callback s
     = (Raise OutOfRange, s))
  /\ (forall data erase_first callback s,
        len data = 1 ->
        onboard_flash_write (flash_over ram_flash 2) data 1048576 erase_first callback s
        = (Raise OutOfRange, s))
  /\ (forall device filename log_function s,
        onboard_flash device = Some (flash_over ram_flash 2) ->
        (unwritable s filename = false ->
           exists s',
             spi_flash_read device filename 1048576 1 log_function s
             = (Raise OutOfRange, s')
             /\ emitted s s' [FlashRead 1048576 1] /\ flash s' = flash s)
        /\ (unwritable s filename = true ->
              spi_flash_read device filename 1048576 1 log_function s
              = (Raise (IOError filename), s)))
  /\ (forall device filename log_function s data,
        onboard_flash device = Some (flash_over ram_flash 2) ->
        unreadable s filename = false ->
        files s !! filename = Some data ->
        len data = 1 ->
        exists s',
          spi_flash_write device filename 1048576 log_function s
          = (Raise OutOfRange, s')
          /\ emitted s s' [FlashWrite data 1048576 true] /\ flash s' = flash s).
Proof.
  apply (flash_request_out_of_range (flash_over ram_flash 2) 1048576 1).
  by vm_compute.
Defined.

Lemma spi_flash_write_erases_first_witness :
  exists evs,
    emitted (world_with [1; 2; 3; 4; 5])
      (spi_flash_write (board_with ram_flash 8) "firmware.bin" 16 log_verbose
         (world_with [1; 2; 3; 4; 5])).2
      (FlashWrite [1; 2; 3; 4; 5] 16 true :: evs)
    /\ (16 + len [1; 2; 3; 4; 5] <= max_flash_length (flash_over ram_flash 8) ->
        len [1; 2; 3; 4; 5] <> 0 ->
          exists rest,
            evs = Erase 16 (len [1; 2; 3; 4; 5]) :: rest
            /\ Forall (fun e => is_transport_call e = true -> is_write_chunk e = true) rest
            /\ (forall e t,
                  flash_erase ram_flash 16 (len [1; 2; 3; 4; 5]) [] = (Raise e, t) ->
                  rest = []
                  /\ (spi_flash_write (board_with ram_flash 8) "firmware.bin" 16 log_verbose
                        (world_with [1; 2; 3; 4; 5])).1 = Raise e
                  /\ flash (spi_flash_write (board_with ram_flash 8) "firmware.bin" 16
                              log_verbose (world_with [1; 2; 3; 4; 5])).2 = t))
    /\ (max_flash_length (flash_over ram_flash 8) < 16 + len [1; 2; 3; 4; 5]
        \/ len [1; 2; 3; 4; 5] = 0 ->
          forall c, c ∈ evs -> is_transport_call c = false)
    /\ (forall c, c ∈ evs -> is_write_chunk c = true ->
          exists t rest,
            flash_erase ram_flash 16 (len [1; 2; 3; 4; 5]) [] = (Ok tt, t)
            /\ evs = Erase 16 (len [1; 2; 3; 4; 5]) :: rest
            /\ Forall (fun e => is_transport_call e = true -> is_write_chunk e = true) rest)
    /\ (forall e t,
          flash_erase ram_flash 16 (len [1; 2; 3; 4; 5]) [] = (Raise e, t) ->
          (forall c, c ∈ evs -> is_write_chunk c = false)
          /\ (Erase 16 (len [1; 2; 3; 4; 5]) ∈ evs ->
                (spi_flash_write (board_with ram_flash 8) "firmware.bin" 16 log_verbose
                   (world_with [1; 2; 3; 4; 5])).1 = Raise e
                /\ evs = [Erase 16 (len [1; 2; 3; 4; 5])]
                /\ flash (spi_flash_write (board_with ram_flash 8) "firmware.bin" 16
                            log_verbose (world_with [1; 2; 3; 4; 5])).2 = t)).
Proof.
  apply (spi_flash_write_erases_first (board_with ram_flash 8) (flash_over ram_flash 8)
           "firmware.bin" 16 log_verbose [1; 2; 3; 4; 5] (world_with [1; 2; 3; 4; 5])
           (spi_flash_write (board_with ram_flash 8) "firmware.bin" 16 log_verbose
              (world_with [1; 2; 3; 4; 5])).1);
    [reflexivity | reflexivity | reflexivity | reflexivity].
Defined.

(** ** Further properties of the utility *)

Section MoreFlash.
Context {F : Type}.
Implicit Types (s : world F) (fl : OnboardFlash F) (device : Device F)
  (callback : @progress_callback F) (log_function : logger).

Lemma string_app_empty_r (text : string) : text +:+ "" = text.
Proof.
  induction text as [|c text IH]; [done|].
  change (String c (text +:+ "") = String c text). by rewrite IH.
Qed.

(** *** What the flash layer keeps *)

Section Kept.
Context {X : Type} (proj : world F -> X).
Hypothesis Hproj : untouched proj.

Lemma keeps_record e : keeps proj (record e).
Proof. intros s. apply Hproj. Qed.

Lemma keeps_transport_erase fl address length :
  keeps proj (transport_erase fl address length).
Proof. intros s. unfold transport_erase. destruct (flash_erase _ _ _ _). apply Hproj. Qed.

Lemma keeps_transport_read fl offset length :
  keeps proj (transport_read fl offset length).
Proof. intros s. unfold transport_read. destruct (flash_read _ _ _ _). apply Hproj. Qed.

Lemma keeps_transport_write fl offset chunk :
  keeps proj (transport_write fl offset chunk).
Proof. intros s. unfold transport_write. destruct (flash_write _ _ _ _). apply Hproj. Qed.

Lemma keeps_reset_device device : keeps proj (reset_device device).
Proof. intros s. unfold reset_device. destruct (device_reset _ _). apply Hproj. Qed.

Lemma keeps_get_onboard_flash device : keeps proj (get_onboard_flash device).
Proof. intros s. unfold get_onboard_flash. by destruct (onboard_flash device). Qed.

Section WithCallback.
Variable callback : @progress_callback F.
Hypothesis Hcb : forall bytes_done bytes_total, keeps proj (callback bytes_done bytes_total).

Lemma keeps_emit_progress bytes_done bytes_total :
  keeps proj (emit_progress callback bytes_done bytes_total).
Proof. apply keeps_bind; [apply keeps_record | intros _; apply Hcb]. Qed.

Lemma keeps_read_chunks fuel fl length offset remaining buffer :
  keeps proj (read_chunks fuel fl callback length offset remaining buffer).
Proof.
  revert offset remaining buffer.
  induction fuel as [|fuel IH]; intros offset remaining buffer; simpl;
    destruct (remaining >? 0); try apply keeps_ret.
  apply keeps_bind; [apply keeps_transport_read|]. intros chunk.
  apply keeps_bind; [apply keeps_emit_progress|]. intros _. apply IH.
Qed.

Lemma keeps_write_chunks fuel fl length offset rest :
  keeps proj (write_chunks fuel fl callback length offset rest).
Proof.
  revert offset rest.
  induction fuel as [|fuel IH]; intros offset rest; simpl;
    destruct (len rest >? 0); try apply keeps_ret.
  apply keeps_bind; [apply keeps_transport_write|]. intros _.
  apply keeps_bind; [apply keeps_emit_progress|]. intros _. apply IH.
Qed.

Lemma keeps_onboard_flash_read fl address length :
  keeps proj (onboard_flash_read fl address length callback).
Proof.
  unfold onboard_flash_read.
  destruct (address + length >? max_flash_length fl); [apply keeps_raise|].
  destruct (length =? 0); [|apply keeps_read_chunks].
  apply keeps_bind; [apply keeps_emit_progress | intros _; apply keeps_ret].
Qed.

Lemma keeps_onboard_flash_write fl data address erase_first :
  keeps proj (onboard_flash_write fl data address erase_first callback).
Proof.
  unfold onboard_flash_write.
  destruct (address + len data >? max_flash_length fl); [apply keeps_raise|].
  destruct (len data =? 0); [apply keeps_emit_progress|].
  apply keeps_bind; [|intros _; apply keeps_write_chunks].
  destruct erase_first; [apply keeps_transport_erase | apply keeps_ret].
Qed.

Lemma keeps_device_onboard_flash_read device address length :
  keeps proj (device_onboard_flash_read device address length callback).
Proof.
  apply keeps_bind; [apply keeps_get_onboard_flash|]. intros fl.
  apply keeps_bind; [apply keeps_record | intros _; apply keeps_onboard_flash_read].
Qed.

Lemma keeps_device_onboard_flash_write device data address erase_first :
  keeps proj (device_onboard_flash_write device data address erase_first callback).
Proof.
  apply keeps_bind; [apply keeps_get_onboard_flash|]. intros fl.
  apply keeps_bind; [apply keeps_record | intros _; apply keeps_onboard_flash_write].
Qed.

End WithCallback.
End Kept.

Lemma untouched_files : untouched (F := F) files.
Proof. intros e t s. done. Qed.

Lemma untouched_stdout : untouched (F := F) stdout.
Proof. intros e t s. done. Qed.

Lemma untouched_stderr : untouched (F := F) stderr.
Proof. intros e t s. done. Qed.

Lemma keeps_files_log log_function text e : keeps (S := world F) files (log log_function text e).
Proof. intros s. done. Qed.

Lemma keeps_stderr_log log_function text e : keeps (S := world F) stderr (log log_function text e).
Proof. intros s. done. Qed.

Lemma keeps_stdout_log log_function text e :
  silent log_function -> keeps (S := world F) stdout (log log_function text e).
Proof. intros Hs s. simpl. rewrite Hs. apply string_app_empty_r. Qed.

Lemma keeps_read_file {X} (proj : world F -> X) filename : keeps proj (read_file filename).
Proof.
  intros s. unfold read_file.
  destruct (unreadable s filename); [done|]. by destruct (files s !! filename).
Qed.

Lemma keeps_trace_open_wb filename : keeps (S := world F) trace (open_wb filename).
Proof. intros s. unfold open_wb. by destruct (unwritable s filename). Qed.

Lemma keeps_stdout_open_wb filename : keeps (S := world F) stdout (open_wb filename).
Proof. intros s. unfold open_wb. by destruct (unwritable s filename). Qed.

(** X7. Writing from a file that does not exist raises [IOError] at
    once: the board is not asked for its flash, nothing is sent and the
    world is as it was. *)
Theorem spi_flash_write_missing_file device filename address log_function s :
  files s !! filename = None ->
  spi_flash_write device filename address log_function s
  = (Raise (IOError filename), s).
Proof.
  intros Hnone. unfold spi_flash_write.
  apply bind_raise. unfold read_file. rewrite Hnone.
  by destruct (unreadable s filename).
Qed.

(** X8. [spi_flash_write] only reads: whatever the board, the file and
    the outcome, every file is afterwards as it was, and nothing is
    printed on the standard error. *)
Theorem spi_flash_write_keeps_files device filename address log_function s :
  files (spi_flash_write device filename address log_function s).2 = files s
  /\ stderr (spi_flash_write device filename address log_function s).2 = stderr s.
Proof.
  split.
  - revert s. apply keeps_bind; [apply keeps_read_file|]. intros data.
    apply keeps_bind; [|intros _; apply keeps_files_log].
    apply keeps_device_onboard_flash_write; [apply untouched_files|].
    intros d t. apply keeps_files_log.
  - revert s. apply keeps_bind; [apply keeps_read_file|]. intros data.
    apply keeps_bind; [|intros _; apply keeps_stderr_log].
    apply keeps_device_onboard_flash_write; [apply untouched_stderr|].
    intros d t. apply keeps_stderr_log.
Qed.


(** *** The events of a run *)

Lemma shaped_quiet {A} (Q : list event -> Prop) (m : M (world F) A) :
  keeps trace m -> Q [] -> shaped Q m.
Proof.
  intros Hm HQ s. exists []. split; [|done].
  unfold emitted. by rewrite Hm, app_nil_r.
Qed.

Lemma shaped_mono {A} (Q Q' : list event -> Prop) (m : M (world F) A) :
  (forall evs, Q evs -> Q' evs) -> shaped Q m -> shaped Q' m.
Proof. intros HQ Hm s. destruct (Hm s) as (evs & He & Hq). exists evs. auto. Qed.

Lemma shaped_bind {A B} (Q1 Q2 : list event -> Prop) (m : M (world F) A)
    (k : A -> M (world F) B) :
  shaped Q1 m -> (forall a, shaped Q2 (k a)) -> Q2 [] ->
  shaped (fun evs => exists e1 e2, evs = e1 ++ e2 /\ Q1 e1 /\ Q2 e2) (m ≫= k).
Proof.
  intros Hm Hk HQ2 s. unfold mbind, M_bind, bind.
  destruct (Hm s) as (e1 & He1 & Hq1).
  destruct (m s) as [[a|e] s1]; simpl in He1.
  - destruct (Hk a s1) as (e2 & He2 & Hq2).
    exists (e1 ++ e2). split.
    + unfold emitted in *. by rewrite He2, He1, app_assoc.
    + by exists e1, e2.
  - exists e1. split; [done|]. exists e1, []. by rewrite app_nil_r.
Qed.

Lemma shaped_bind_quiet {A B} (Q : list event -> Prop) (m : M (world F) A)
    (k : A -> M (world F) B) :
  keeps trace m -> (forall a, shaped Q (k a)) -> Q [] -> shaped Q (m ≫= k).
Proof.
  intros Hm Hk HQ.
  eapply shaped_mono; [|apply (shaped_bind (fun evs => evs = []) Q m k)]; try done.
  - intros evs (e1 & e2 & -> & -> & Hq). done.
  - by apply shaped_quiet.
Qed.

Lemma shaped_then_quiet {A B} (Q : list event -> Prop) (m : M (world F) A)
    (k : A -> M (world F) B) :
  shaped Q m -> (forall a, keeps trace (k a)) -> shaped Q (m ≫= k).
Proof.
  intros Hm Hk.
  eapply shaped_mono; [|apply (shaped_bind Q (fun evs => evs = []) m k)]; try done.
  - intros evs (e1 & e2 & -> & Hq & ->). by rewrite app_nil_r.
  - intros a. by apply shaped_quiet.
Qed.

Abbreviation layer := (Forall (fun e => is_layer_event e = true)).

Lemma shaped_layer_bind {A B} (m : M (world F) A) (k : A -> M (world F) B) :
  shaped layer m -> (forall a, shaped layer (k a)) -> shaped layer (m ≫= k).
Proof.
  intros Hm Hk.
  eapply shaped_mono; [|apply (shaped_bind layer layer m k)]; try done.
  intros evs (e1 & e2 & -> & H1 & H2). by apply Forall_app.
Qed.

Lemma shaped_layer_ret {A} (a : A) : shaped layer (ret (S := world F) a).
Proof. apply shaped_quiet; [apply keeps_ret | done]. Qed.

Lemma shaped_transport_erase fl address length :
  shaped layer (transport_erase fl address length).
Proof.
  intros s. exists [Erase address length]. split; [|by repeat constructor].
  unfold transport_erase. by destruct (flash_erase _ _ _ _).
Qed.

Lemma shaped_transport_read fl offset length :
  shaped layer (transport_read fl offset length).
Proof.
  intros s. exists [ReadChunk offset length]. split; [|by repeat constructor].
  unfold transport_read. by destruct (flash_read _ _ _ _).
Qed.

Lemma shaped_transport_write fl offset chunk :
  shaped layer (transport_write fl offset chunk).
Proof.
  intros s. exists [WriteChunk offset chunk]. split; [|by repeat constructor].
  unfold transport_write. by destruct (flash_write _ _ _ _).
Qed.

Section LayerEvents.
Variable callback : @progress_callback F.
Hypothesis Hcb : forall bytes_done bytes_total, keeps trace (callback bytes_done bytes_total).

Lemma shaped_emit_progress bytes_done bytes_total :
  shaped layer (emit_progress callback bytes_done bytes_total).
Proof.
  apply shaped_then_quiet; [|intros _; apply Hcb].
  intros s. exists [Progress bytes_done bytes_total]. split; [done | by repeat constructor].
Qed.

Lemma shaped_read_chunks fuel fl length offset remaining buffer :
  shaped layer (read_chunks fuel fl callback length offset remaining buffer).
Proof.
  revert offset remaining buffer.
  induction fuel as [|fuel IH]; intros offset remaining buffer; simpl;
    destruct (remaining >? 0); try apply shaped_layer_ret.
  apply shaped_layer_bind; [apply shaped_transport_read|]. intros chunk.
  apply shaped_layer_bind; [apply shaped_emit_progress|]. intros _. apply IH.
Qed.

Lemma shaped_write_chunks fuel fl length offset rest :
  shaped layer (write_chunks fuel fl callback length offset rest).
Proof.
  revert offset rest.
  induction fuel as [|fuel IH]; intros offset rest; simpl;
    destruct (len rest >? 0); try apply shaped_layer_ret.
  apply shaped_layer_bind; [apply shaped_transport_write|]. intros _.
  apply shaped_layer_bind; [apply shaped_emit_progress|]. intros _. apply IH.
Qed.

Lemma shaped_onboard_flash_read fl address length :
  shaped layer (onboard_flash_read fl address length callback).
Proof.
  unfold onboard_flash_read.
  destruct (address + length >? max_flash_length fl).
  { apply shaped_quiet; [apply keeps_raise | done]. }
  destruct (length =? 0); [|apply shaped_read_chunks].
  apply shaped_layer_bind; [apply shaped_emit_progress | intros _; apply shaped_layer_ret].
Qed.

Lemma shaped_onboard_flash_write fl data address erase_first :
  shaped layer (onboard_flash_write fl data address erase_first callback).
Proof.
  unfold onboard_flash_write.
  destruct (address + len data >? max_flash_length fl).
  { apply shaped_quiet; [apply keeps_raise | done]. }
  destruct (len data =? 0); [apply shaped_emit_progress|].
  apply shaped_layer_bind; [|intros _; apply shaped_write_chunks].
  destruct erase_first; [apply shaped_transport_erase | apply shaped_layer_ret].
Qed.

Lemma shaped_device_onboard_flash_write device data address :
  shaped (write_events address)
    (device_onboard_flash_write device data address true callback).
Proof.
  intros s. unfold device_onboard_flash_write, get_onboard_flash.
  destruct (onboard_flash device) as [fl|].
  - set (s0 := with_event (FlashWrite data address true) (flash s) s).
    destruct (shaped_onboard_flash_write fl data address true s0) as (evs & He & Hall).
    exists (FlashWrite data address true :: evs). split.
    + unfold emitted in *. unfold mbind, M_bind, bind, ret, record. simpl.
      fold s0. rewrite He. subst s0. simpl. by rewrite <- app_assoc.
    + right. by exists data, evs.
  - exists []. split; [|by left]. unfold emitted. simpl. by rewrite app_nil_r.
Qed.

Lemma shaped_device_onboard_flash_read device address length :
  shaped (read_events address length)
    (device_onboard_flash_read device address length callback).
Proof.
  intros s. unfold device_onboard_flash_read, get_onboard_flash.
  destruct (onboard_flash device) as [fl|].
  - set (s0 := with_event (FlashRead address length) (flash s) s).
    destruct (shaped_onboard_flash_read fl address length s0) as (evs & He & Hall).
    exists (FlashRead address length :: evs). split.
    + unfold emitted in *. unfold mbind, M_bind, bind, ret, record. simpl.
      fold s0. rewrite He. subst s0. simpl. by rewrite <- app_assoc.
    + right. by exists evs.
  - exists []. split; [|by left]. unfold emitted. simpl. by rewrite app_nil_r.
Qed.

End LayerEvents.

Lemma keeps_trace_log log_function text e : keeps (S := world F) trace (log log_function text e).
Proof. intros s. done. Qed.

Lemma keeps_trace_print_stderr text : keeps (S := world F) trace (print_stderr text).
Proof. intros s. done. Qed.

Lemma shaped_spi_flash_write device filename address log_function :
  shaped (write_events address) (spi_flash_write device filename address log_function).
Proof.
  unfold spi_flash_write.
  apply shaped_bind_quiet; [apply keeps_read_file | | by left]. intros data.
  apply shaped_then_quiet; [|intros _; apply keeps_trace_log].
  apply shaped_device_onboard_flash_write. intros d t. apply keeps_trace_log.
Qed.

Lemma shaped_spi_flash_read device filename address length log_function :
  shaped (read_events address length)
    (spi_flash_read device filename address length log_function).
Proof.
  unfold spi_flash_read.
  apply shaped_bind_quiet; [apply keeps_trace_open_wb | | by left]. intros _.
  apply shaped_then_quiet.
  - apply shaped_device_onboard_flash_read. intros d t. apply keeps_trace_log.
  - intros data. apply keeps_bind; [by intros s | intros _; apply keeps_trace_log].
Qed.

(** *** [main] *)

Section MainFacts.
Variables quiet_log verbose_log : logger.
Variable find : option string -> option (Device F).
Variable help : string.

#[local] Abbreviation run_main := (main quiet_log verbose_log find help).

(** X10. Without [-r], [-w] and [-R] the utility prints its help and
    exits with status 0; it does not look for a board, and nothing but
    the standard output changes. *)
Theorem main_no_option_prints_help args s :
  has_option args = false ->
  run_main args s = (Raise (SystemExit 0), with_stdout (stdout s +:+ help) s).
Proof.
  intros Hopt. unfold main. fold (has_option args). rewrite Hopt. reflexivity.
Qed.

(** X11. When no board is found the utility exits with status [ENODEV]
    after one line on the standard error, which names the serial number
    if one was given. No file is opened and nothing is sent. *)
Theorem main_no_board_exits args s :
  has_option args = true ->
  find (serial args) = None ->
  let log_function := if quiet args then quiet_log else verbose_log in
  let wanted := default "" (serial args) in
  let message :=
    if truthy wanted
    then "No GreatFET board found matching serial '" +:+ wanted +:+ "'."
    else "No GreatFET board found!" in
  run_main args s
  = (Raise (SystemExit ENODEV),
     with_stderr (stderr s +:+ message +:+ LF)
       (with_stdout
          (stdout s +:+ log_function "Trying to find a GreatFET device..." None) s)).
Proof.
  intros Hopt Hfind. unfold main. fold (has_option args). rewrite Hopt, Hfind.
  simpl. destruct (truthy (default "" (serial args))); reflexivity.
Qed.

(** X12. When the board found has no SPI flash the utility exits with
    status [ENOSYS] after one line on the standard error that names the
    board. No file is opened and nothing is sent, whatever was asked. *)
Theorem main_no_flash_exits args device s :
  has_option args = true ->
  find (serial args) = Some device ->
  onboard_flash device = None ->
  let log_function := if quiet args then quiet_log else verbose_log in
  run_main args s
  = (Raise (SystemExit ENOSYS),
     with_stderr
       (stderr s +:+ ("The attached GreatFET (" +:+ board_name device
                      +:+ ") doesn't appear to have an SPI flash to program!") +:+ LF)
       (with_stdout
          ((stdout s +:+ log_function "Trying to find a GreatFET device..." None)
           +:+ log_function
                 (board_name device +:+ " found. (Serial number: "
                  +:+ serial_number device +:+ ")") None) s)).
Proof.
  intros Hopt Hfind Hflash. unfold main. fold (has_option args).
  rewrite Hopt, Hfind. unfold mbind, M_bind, bind, log, ret. simpl.
  rewrite Hflash. reflexivity.
Qed.

(** X13. In every run of [main] the write comes first, then the read,
    then the reset: the events are those of one write at [--address]
    with [erase_first] set, if [-w] was given, followed by those of one
    read of [--length] bytes at [--address], if [-r] was given, followed
    by the reset, if [-R] was given. Each part may be missing because an
    earlier step failed, and nothing follows the reset. *)
Theorem main_order_of_events args s :
  exists evs, emitted s (run_main args s).2 evs /\ main_events args evs.
Proof.
  revert s. change (shaped (main_events args) (run_main args)).
  assert (Hnil : main_events args []).
  { exists [], [], []. split; [done|]. split; [by left|]. split; [done|].
    split; [by left|]. split; [done | by left]. }
  unfold main. destruct (negb _).
  { apply shaped_quiet; [|done].
    apply keeps_bind; [by intros s | intros _; apply keeps_raise]. }
  set (log_function := if quiet args then quiet_log else verbose_log).
  apply shaped_bind_quiet; [apply keeps_trace_log | intros _ | done].
  apply shaped_bind_quiet; [| intros device | done].
  { destruct (find (serial args)) as [device|].
    - apply keeps_bind; [apply keeps_trace_log | intros _; apply keeps_ret].
    - apply keeps_bind; [|intros _; apply keeps_raise].
      destruct (truthy _); apply keeps_trace_print_stderr. }
  destruct (onboard_flash device) as [fl|].
  2:{ apply shaped_quiet; [|done].
      apply keeps_bind; [apply keeps_trace_print_stderr | intros _; apply keeps_raise]. }
  set (QW := fun w => write_events (address args) w
                      /\ (truthy (write args) = false -> w = [])).
  set (QR := fun rd => read_events (address args) (length args) rd
                       /\ (truthy (read args) = false -> rd = [])).
  set (QZ := fun z : list event => z = [] \/ (reset args = true /\ z = [Reset])).
  eapply shaped_mono;
    [|apply (shaped_bind QW (fun evs => exists e1 e2, evs = e1 ++ e2 /\ QR e1 /\ QZ e2))].
  - intros evs (w & e & -> & [Hw Hw'] & rd & z & -> & [Hr Hr'] & Hz).
    by exists w, rd, z.
  - destruct (truthy (write args)).
    + apply shaped_bind_quiet; [apply keeps_trace_log | intros _ | by split; [left|]].
      apply shaped_then_quiet.
      * eapply shaped_mono; [|apply shaped_spi_flash_write]. intros evs Hw. by split.
      * intros _. apply keeps_bind; [apply keeps_trace_log|]. intros _.
        destruct (negb (reset args)); [apply keeps_trace_log | apply keeps_ret].
    + apply shaped_quiet; [apply keeps_ret | by split; [left|]].
  - intros _. apply (shaped_bind QR QZ).
    + destruct (truthy (read args)).
      * apply shaped_bind_quiet; [apply keeps_trace_log | intros _ | by split; [left|]].
        apply shaped_then_quiet; [|intros _; apply keeps_trace_log].
        eapply shaped_mono; [|apply shaped_spi_flash_read]. intros evs Hr. by split.
      * apply shaped_quiet; [apply keeps_ret | by split; [left|]].
    + intros _. destruct (reset args) eqn:Hreset.
      * apply shaped_bind_quiet; [apply keeps_trace_log | intros _ | by left].
        apply shaped_then_quiet; [|intros _; apply keeps_trace_log].
        intros s. exists [Reset]. split; [|by right].
        unfold reset_device. by destruct (device_reset _ _).
      * apply shaped_quiet; [apply keeps_ret | by left].
    + by left.
  - exists [], []. split; [done|]. split; [by split; [left|] | by left].
Qed.

(** X14. When the write raises, [main] ends there with the same error
    and the world the write left: the line that reports the write is
    not printed, no read is made and the board is not reset. *)
Theorem main_stops_when_write_fails args device fl s e s2 :
  truthy (write args) = true ->
  find (serial args) = Some device ->
  onboard_flash device = Some fl ->
  let log_function := if quiet args then quiet_log else verbose_log in
  spi_flash_write device (write args) (address args) log_function
    (with_stdout
       (((stdout s +:+ log_function "Trying to find a GreatFET device..." None)
         +:+ log_function
               (board_name device +:+ " found. (Serial number: "
                +:+ serial_number device +:+ ")") None)
        +:+ log_function "Writing data to SPI flash..." None) s)
  = (Raise e, s2) ->
  run_main args s = (Raise e, s2).
Proof.
  intros Hwrite Hfind Hflash log_function Hrun. unfold main.
  rewrite Hwrite, Bool.orb_true_r. simpl. rewrite Hfind.
  fold log_function. unfold mbind, M_bind, bind, log, ret. simpl.
  rewrite Hflash. unfold with_stdout in *. simpl in *. rewrite Hrun. reflexivity.
Qed.

(** X15. With [-q] and a quiet logging function that prints nothing, a
    run that was asked for something leaves the standard output as it
    was, whatever happens to the board, the files and the flash. *)
Theorem main_quiet_prints_nothing args s :
  has_option args = true ->
  quiet args = true ->
  silent quiet_log ->
  stdout (run_main args s).2 = stdout s.
Proof.
  intros Hopt Hquiet Hsilent. revert s. change (keeps stdout (run_main args)).
  unfold main. fold (has_option args). rewrite Hopt, Hquiet. simpl.
  assert (Hlog : forall text e, keeps (S := world F) stdout (log quiet_log text e))
    by (intros; by apply keeps_stdout_log).
  assert (Herr : forall text, keeps (S := world F) stdout (print_stderr text))
    by (intros text s; done).
  assert (Hw : forall device filename address,
            keeps stdout (spi_flash_write device filename address quiet_log)).
  { intros device filename address. unfold spi_flash_write.
    apply keeps_bind; [apply keeps_read_file|]. intros data.
    apply keeps_bind; [|intros _; apply Hlog].
    apply keeps_device_onboard_flash_write; [apply untouched_stdout|].
    intros d t. apply Hlog. }
  assert (Hr : forall device filename address length,
            keeps stdout (spi_flash_read device filename address length quiet_log)).
  { intros device filename address length. unfold spi_flash_read.
    apply keeps_bind; [apply keeps_stdout_open_wb|]. intros _.
    apply keeps_bind.
    - apply keeps_device_onboard_flash_read; [apply untouched_stdout|].
      intros d t. apply Hlog.
    - intros data. apply keeps_bind; [by intros s | intros _; apply Hlog]. }
  apply keeps_bind; [apply Hlog|]. intros _.
  apply keeps_bind.
  { destruct (find (serial args)) as [device|].
    - apply keeps_bind; [apply Hlog | intros _; apply keeps_ret].
    - apply keeps_bind; [|intros _; apply keeps_raise].
      destruct (truthy _); apply Herr. }
  intros device. destruct (onboard_flash device) as [fl|].
  2:{ apply keeps_bind; [apply Herr | intros _; apply keeps_raise]. }
  apply keeps_bind.
  { destruct (truthy (write args)); [|apply keeps_ret].
    apply keeps_bind; [apply Hlog|]. intros _.
    apply keeps_bind; [apply Hw|]. intros _.
    apply keeps_bind; [apply Hlog|]. intros _.
    destruct (negb (reset args)); [apply Hlog | apply keeps_ret]. }
  intros _. apply keeps_bind.
  { destruct (truthy (read args)); [|apply keeps_ret].
    apply keeps_bind; [apply Hlog|]. intros _.
    apply keeps_bind; [apply Hr | intros _; apply Hlog]. }
  intros _. destruct (reset args); [|apply keeps_ret].
  apply keeps_bind; [apply Hlog|]. intros _.
  apply keeps_bind; [|intros _; apply Hlog].
  apply keeps_reset_device, untouched_stdout.
Qed.

(** X16. [--length] only matters to a read: without [-r] a run is the
    same whatever length was given. A write always takes the whole
    file. *)
Theorem main_length_unused_without_read args n s :
  read args = "" ->
  run_main (with_length n args) s = run_main args s.
Proof.
  intros Hread. unfold main, with_length. simpl. rewrite Hread. reflexivity.
Qed.

End MainFacts.

End MoreFlash.

Lemma spi_flash_write_missing_file_witness :
  spi_flash_write (board_with ram_flash 8) "other.bin" 16 log_verbose (world_with [1])
  = (Raise (IOError "other.bin"), world_with [1]).
Proof.
  apply (spi_flash_write_missing_file (board_with ram_flash 8) "other.bin" 16 log_verbose
           (world_with [1])).
  reflexivity.
Defined.


Lemma main_no_option_prints_help_witness :
  main log_silent log_verbose no_board "usage" default_args (world_with [])
  = (Raise (SystemExit 0), with_stdout (stdout (world_with []) +:+ "usage") (world_with [])).
Proof.
  apply (main_no_option_prints_help log_silent log_verbose no_board "usage" default_args
           (world_with [])).
  reflexivity.
Defined.

Lemma main_no_board_exits_witness :
  main log_silent log_verbose no_board "usage" quiet_write_args (world_with [1])
  = (Raise (SystemExit ENODEV),
     with_stderr (stderr (world_with [1]) +:+ "No GreatFET board found!" +:+ LF)
       (with_stdout
          (stdout (world_with [1])
           +:+ log_silent "Trying to find a GreatFET device..." None) (world_with [1]))).
Proof.
  apply (main_no_board_exits log_silent log_verbose no_board "usage" quiet_write_args
           (world_with [1])); reflexivity.
Defined.

Lemma main_no_flash_exits_witness :
  main log_silent log_verbose (fun _ => Some bare_board) "usage" quiet_write_args
    (world_with [1])
  = (Raise (SystemExit ENOSYS),
     with_stderr
       (stderr (world_with [1])
        +:+ ("The attached GreatFET (" +:+ board_name bare_board
             +:+ ") doesn't appear to have an SPI flash to program!") +:+ LF)
       (with_stdout
          ((stdout (world_with [1])
            +:+ log_silent "Trying to find a GreatFET device..." None)
           +:+ log_silent
                 (board_name bare_board +:+ " found. (Serial number: "
                  +:+ serial_number bare_board +:+ ")") None) (world_with [1]))).
Proof.
  apply (main_no_flash_exits log_silent log_verbose (fun _ => Some bare_board) "usage"
           quiet_write_args bare_board (world_with [1])); reflexivity.
Defined.

Lemma main_stops_when_write_fails_witness :
  main log_silent log_verbose (fun _ => Some (board_with stuck_flash 8)) "usage"
    quiet_write_args (world_with [1; 2; 3])
  = (Raise flash_error,
     (spi_flash_write (board_with stuck_flash 8) "firmware.bin" 0 log_silent
        (world_with [1; 2; 3])).2).
Proof.
  apply (main_stops_when_write_fails log_silent log_verbose
           (fun _ => Some (board_with stuck_flash 8)) "usage" quiet_write_args
           (board_with stuck_flash 8) (flash_over stuck_flash 8) (world_with [1; 2; 3]));
    reflexivity.
Defined.

Lemma main_quiet_prints_nothing_witness :
  stdout (main log_silent log_verbose (fun _ => Some (board_with ram_flash 8)) "usage"
            quiet_write_args (world_with [1; 2; 3])).2
  = stdout (world_with [1; 2; 3]).
Proof.
  apply (main_quiet_prints_nothing log_silent log_verbose
           (fun _ => Some (board_with ram_flash 8)) "usage" quiet_write_args
           (world_with [1; 2; 3]));
    [reflexivity | reflexivity | intros text e; reflexivity].
Defined.

Lemma main_length_unused_without_read_witness :
  main log_silent log_verbose (fun _ => Some (board_with ram_flash 8)) "usage"
    (with_length 16 quiet_write_args) (world_with [1; 2; 3])
  = main log_silent log_verbose (fun _ => Some (board_with ram_flash 8)) "usage"
      quiet_write_args (world_with [1; 2; 3]).
Proof.
  apply (main_length_unused_without_read log_silent log_verbose
           (fun _ => Some (board_with ram_flash 8)) "usage" quiet_write_args 16
           (world_with [1; 2; 3])).
  reflexivity.
Defined.

End FirmwareFacts.
